(** * microproject-go: the transparency-register explorer of [main.go]

    A shallow embedding of the Go program and the properties of its
    specification.  Go strings are byte sequences and are modelled by
    [string] (one [ascii] per byte); runes and machine integers are [Z];
    [float64] is the kernel's binary64 [float]; Go maps are [gmap]s.
    What the program takes from the Go runtime and standard library and
    cannot be read off [main.go] (Unicode tables, map iteration order,
    [sort.Slice], [math.Log10], the HTTP answer, goroutine scheduling) is
    an interface with its documented contract. *)

From Stdlib Require Import ZArith Lia List String Ascii Floats Uint63.
From Stdlib Require Import DecimalString FunInd Recdef.
From stdpp Require Import gmap strings list fin_maps sorting.

#[local] Set Warnings "-register-all,-clear-no-such-hyp".

Open Scope string_scope.
Open Scope list_scope.
Open Scope Z_scope.

(** ** Bytes and strings *)

(** The numeric value of the byte [c]. *)
Definition byte_val (c : ascii) : Z := Z.of_N (N_of_ascii c).

(** [s[n:]] for [n <= len(s)]. *)
Fixpoint str_from (n : nat) (s : string) : string :=
  match n, s with
  | O, _ => s
  | S n', String _ rest => str_from n' rest
  | S _, EmptyString => EmptyString
  end.

(** [s[i]] for [i < len(s)]. *)
Definition byte_at (s : string) (i : nat) : Z :=
  match String.get i s with
  | Some c => byte_val c
  | None => 0
  end.

(** The tab and the newline characters. *)
Definition tab : string := String "009"%char "".

Definition nl : string := String "010"%char "".

(** Wrap-around of a 32-bit signed integer ([rune] is [int32]). *)
Definition int32 (z : Z) : Z := (z + 2 ^ 31) mod 2 ^ 32 - 2 ^ 31.

(** ** Package [unicode/utf8] *)

Module utf8.

Definition RuneError : Z := 0xFFFD.
Definition RuneSelf : Z := 0x80.

Definition maskx : Z := 0x3F.
Definition mask2 : Z := 0x1F.
Definition mask3 : Z := 0x0F.
Definition mask4 : Z := 0x07.

Definition locb : Z := 0x80.
Definition hicb : Z := 0xBF.

Definition xx : Z := 0xF1.
Definition as_ : Z := 0xF0.
Definition s1 : Z := 0x02.
Definition s2 : Z := 0x13.
Definition s3 : Z := 0x03.
Definition s4 : Z := 0x23.
Definition s5 : Z := 0x34.
Definition s6 : Z := 0x04.
Definition s7 : Z := 0x44.

(** The table [first]: information about the first byte of an encoding. *)
Definition first (b : Z) : Z :=
  if b <? 0x80 then as_
  else if b <? 0xC2 then xx
  else if b <? 0xE0 then s1
  else if b =? 0xE0 then s2
  else if b <? 0xED then s3
  else if b =? 0xED then s4
  else if b <? 0xF0 then s3
  else if b =? 0xF0 then s5
  else if b <? 0xF4 then s6
  else if b =? 0xF4 then s7
  else xx.

(** The table [acceptRanges], as pairs [(lo, hi)]. *)
Definition acceptRanges (i : Z) : Z * Z :=
  match i with
  | 0 => (locb, hicb)
  | 1 => (0xA0, hicb)
  | 2 => (locb, 0x9F)
  | 3 => (0x90, hicb)
  | 4 => (locb, 0x8F)
  | _ => (0, 0)
  end.

(** [DecodeRuneInString]: the first rune of [s] and its width in bytes;
    [(RuneError, 0)] on the empty string, [(RuneError, 1)] on an
    invalid encoding. *)
Definition DecodeRuneInString (s : string) : Z * nat :=
  let n := String.length s in
  if (n <? 1)%nat then (RuneError, 0%nat)
  else
    let s0 := byte_at s 0 in
    let x := first s0 in
    if x >=? as_ then
      let mask := Z.shiftr (int32 (Z.shiftl x 31)) 31 in
      (Z.lor (Z.land s0 (Z.lnot mask)) (Z.land RuneError mask), 1%nat)
    else
      let sz := Z.to_nat (Z.land x 7) in
      let accept := acceptRanges (Z.shiftr x 4) in
      if (n <? sz)%nat then (RuneError, 1%nat)
      else
        let s1 := byte_at s 1 in
        if (s1 <? fst accept) || (snd accept <? s1) then (RuneError, 1%nat)
        else if (sz <=? 2)%nat then
          (Z.lor (Z.shiftl (Z.land s0 mask2) 6) (Z.land s1 maskx), 2%nat)
        else
          let s2 := byte_at s 2 in
          if (s2 <? locb) || (hicb <? s2) then (RuneError, 1%nat)
          else if (sz <=? 3)%nat then
            (Z.lor (Z.lor (Z.shiftl (Z.land s0 mask3) 12)
                          (Z.shiftl (Z.land s1 maskx) 6))
                   (Z.land s2 maskx), 3%nat)
          else
            let s3 := byte_at s 3 in
            if (s3 <? locb) || (hicb <? s3) then (RuneError, 1%nat)
            else
              (Z.lor (Z.lor (Z.lor (Z.shiftl (Z.land s0 mask4) 18)
                                   (Z.shiftl (Z.land s1 maskx) 12))
                            (Z.shiftl (Z.land s2 maskx) 6))
                     (Z.land s3 maskx), 4%nat).

End utf8.

(** The decoder consumes at least one byte of a non-empty string and never
    more than the string holds. *)
Lemma DecodeRuneInString_empty : utf8.DecodeRuneInString "" = (utf8.RuneError, 0%nat).
Proof. reflexivity. Qed.

Lemma first_size (b : Z) :
  (utf8.first b >=? utf8.as_) = true \/
  (2 <= Z.to_nat (Z.land (utf8.first b) 7) <= 4)%nat.
Proof.
  unfold utf8.first.
  repeat match goal with |- context [if ?c then _ else _] => destruct c end;
    vm_compute; first [left; reflexivity | right; lia].
Qed.

Lemma DecodeRuneInString_width (s : string) :
  s <> "" ->
  (1 <= snd (utf8.DecodeRuneInString s) <= String.length s)%nat.
Proof.
  intros Hs. destruct s as [|c rest]; [congruence|].
  unfold utf8.DecodeRuneInString.
  set (n := String.length (String c rest)).
  assert (Hn : (1 <= n)%nat) by (subst n; simpl; lia).
  destruct (n <? 1)%nat eqn:E1; [apply Nat.ltb_lt in E1; lia|].
  cbv zeta.
  destruct (first_size (byte_at (String c rest) 0)) as [Hf|Hf].
  { rewrite Hf. cbn [snd]. lia. }
  destruct (utf8.first (byte_at (String c rest) 0) >=? utf8.as_); [cbn [snd]; lia|].
  set (sz := Z.to_nat (Z.land (utf8.first (byte_at (String c rest) 0)) 7)) in *.
  destruct (n <? sz)%nat eqn:E2; [cbn [snd]; lia|].
  apply Nat.ltb_ge in E2.
  destruct (_ || _); [cbn [snd]; lia|].
  destruct (sz <=? 2)%nat eqn:E3; [|apply Nat.leb_gt in E3]; [cbn [snd]; lia|].
  destruct (_ || _); [cbn [snd]; lia|].
  destruct (sz <=? 3)%nat eqn:E4; [|apply Nat.leb_gt in E4]; [cbn [snd]; lia|].
  destruct (_ || _); cbn [snd]; lia.
Qed.

Lemma str_from_length (n : nat) (s : string) :
  String.length (str_from n s) = (String.length s - n)%nat.
Proof.
  revert s; induction n as [|n IH]; intros [|c rest]; simpl; auto.
Qed.

Lemma str_from_shorter (s : string) :
  s <> "" ->
  (String.length (str_from (snd (utf8.DecodeRuneInString s)) s) < String.length s)%nat.
Proof.
  intros Hs. rewrite str_from_length.
  pose proof (DecodeRuneInString_width s Hs). lia.
Qed.

(** The runes a [for ... range s] loop yields: the decoder applied until
    the string is used up (an invalid byte yields [RuneError] and is
    skipped alone). *)
Function runes (s : string) {measure String.length s} : list Z :=
  match s with
  | "" => []
  | String c rest =>
    fst (utf8.DecodeRuneInString (String c rest))
      :: runes (str_from (snd (utf8.DecodeRuneInString (String c rest)))
                         (String c rest))
  end.
Proof.
  intros s c rest Hs. apply (str_from_shorter (String c rest)). discriminate.
Defined.

(** ** Package [unicode] *)

(** The Unicode tables of the Go distribution, which the program consults
    only beyond the ASCII and Latin-1 fast paths written out below. *)
Class UnicodeTables := {
  (** [unicode.To(unicode.LowerCase, r)], used for [r > MaxASCII] *)
  To_LowerCase : Z -> Z;
  (** [isExcludingLatin(unicode.Digit, r)], used for [r > MaxLatin1] *)
  Digit_excludingLatin : Z -> bool
}.

Module unicode.
Section Tables.
Context `{UnicodeTables}.

Definition MaxASCII : Z := 0x7F.
Definition MaxLatin1 : Z := 0xFF.

Definition ToLower (r : Z) : Z :=
  if r <=? MaxASCII then
    if (byte_val "A" <=? r) && (r <=? byte_val "Z")
    then r + (byte_val "a" - byte_val "A")
    else r
  else To_LowerCase r.

Definition IsDigit (r : Z) : bool :=
  if r <=? MaxLatin1 then (byte_val "0" <=? r) && (r <=? byte_val "9")
  else Digit_excludingLatin r.

End Tables.
End unicode.

(** ** The comparator and the quarter check of [main.go] *)

Section Comparator.
Context `{UnicodeTables}.

(** [lessLower], the loop of lines 74-96: one iteration per call.  The
    loop ends because each iteration takes at least one byte off [sb]. *)
Function lessLower (sa sb : string) {measure String.length sb} : bool :=
  let (rb, nb) := utf8.DecodeRuneInString sb in
  if (nb =? 0)%nat then false
  else
    let (ra, na) := utf8.DecodeRuneInString sa in
    if (na =? 0)%nat then true
    else
      let rb := unicode.ToLower rb in
      let ra := unicode.ToLower ra in
      if negb (ra =? rb) then ra <? rb
      else lessLower (str_from na sa) (str_from nb sb).
Proof.
  intros sa sb rb nb Hb Hnb ra na Ha Hna Hne.
  assert (sb <> "") as Hsb.
  { intros ->. simpl in Hb. injection Hb as _ <-. discriminate. }
  pose proof (str_from_shorter sb Hsb) as Hlt. rewrite Hb in Hlt. exact Hlt.
Defined.

(** The loop of [isValidQuarter] over the runes of the string. *)
Fixpoint isValidQuarter_loop (rs : list Z) : bool :=
  match rs with
  | [] => true
  | char :: rest =>
    if negb (unicode.IsDigit char) then false else isValidQuarter_loop rest
  end.

Definition isValidQuarter (quarter : string) : bool :=
  if negb (String.length quarter =? 5)%nat then false
  else isValidQuarter_loop (runes quarter).

End Comparator.

(** ** The record model *)

(** [transaction].  [Bekanntgabe] is a [uint8]; [Euro] is a [float32],
    held here as the binary64 value it converts to exactly. *)
Record transaction := {
  Rechtstraeger : string;
  Quartal : string;
  Bekanntgabe : Z;
  Medieninhaber : string;
  Euro : float
}.

(** The zero value of [transaction]. *)
Definition zero_transaction : transaction :=
  {| Rechtstraeger := ""; Quartal := ""; Bekanntgabe := 0;
     Medieninhaber := ""; Euro := 0%float |}.

(** [float64(x)] for a [float32] [x]: exact. *)
Definition float64_of_float32 (x : float) : float := x.

Definition getRechtstraeger (t : transaction) : string := Rechtstraeger t.

Definition getMedieninhaber (t : transaction) : string := Medieninhaber t.

Definition getQuartal (t : transaction) : string := Quartal t.

(** ** Errors, output and outcomes *)

(** The two errors of [strconv]. *)
Inductive numErr := ErrSyntax | ErrRange.

(** The error values the program handles: [fmt.Errorf] and transport
    errors by their text, [*strconv.NumError], and the result of
    [errors.Join]. *)
Inductive error :=
| errorString (msg : string)
| NumError (func num : string) (err : numErr)
| joinError (errs : list error).

(** An operand of [fmt.Printf]. *)
Inductive arg :=
| a_string (s : string)
| a_int (z : Z)
| a_float (f : float)
| a_error (e : error).

(** One call that writes to standard output. *)
Inductive event :=
| Println (s : string)
| Printf (format : string) (args : list arg).

(** The run-time panics the program can raise. *)
Inductive panic :=
| index_out_of_range (index length : Z)
| slice_bounds_out_of_range (high capacity : Z)
| nil_func_call
| nil_map_assignment.

(** What running a command does: it returns after its output, or it
    panics after the output so far, which ends the process ([main] has no
    [recover]). *)
Inductive outcome :=
| Done (out : list event)
| Panic (out : list event) (p : panic).

(** [errors.Join]: [nil] when there is no error to join. *)
Definition errors_Join (errs : list error) : option error :=
  match errs with
  | [] => None
  | _ :: _ => Some (joinError errs)
  end.

(** ** Package [strings] *)

Module strings.
Section Tables.
Context `{UnicodeTables}.

(** [Join(elems, sep)]. *)
Fixpoint Join (elems : list string) (sep : string) : string :=
  match elems with
  | [] => ""
  | [x] => x
  | x :: rest => x +:+ sep +:+ Join rest sep
  end.

(** [utf8.AppendRune] on an empty buffer: the encoding of [r], that of
    [RuneError] for a surrogate or a value out of range. *)
Definition encodeRune (r : Z) : string :=
  let i := r mod 2 ^ 32 in
  let b (z : Z) : ascii := ascii_of_N (Z.to_N (z mod 256)) in
  let enc3 (r : Z) : string :=
    String (b (Z.lor 0xE0 (Z.shiftr r 12)))
      (String (b (Z.lor 0x80 (Z.land (Z.shiftr r 6) utf8.maskx)))
         (String (b (Z.lor 0x80 (Z.land r utf8.maskx))) "")) in
  if i <=? 0x7F then String (b r) ""
  else if i <=? 0x7FF then
    String (b (Z.lor 0xC0 (Z.shiftr r 6)))
      (String (b (Z.lor 0x80 (Z.land r utf8.maskx))) "")
  else if (0x10FFFF <? i) || ((0xD800 <=? i) && (i <=? 0xDFFF)) then
    enc3 utf8.RuneError
  else if i <=? 0xFFFF then enc3 r
  else
    String (b (Z.lor 0xF0 (Z.shiftr r 18)))
      (String (b (Z.lor 0x80 (Z.land (Z.shiftr r 12) utf8.maskx)))
         (String (b (Z.lor 0x80 (Z.land (Z.shiftr r 6) utf8.maskx)))
            (String (b (Z.lor 0x80 (Z.land r utf8.maskx))) ""))).

(** [Map(mapping, s)]: every rune of [s] replaced by the encoding of its
    image, dropped when the image is negative. *)
Definition Map (mapping : Z -> Z) (s : string) : string :=
  fold_right
    (fun c acc =>
       let r := mapping c in
       if 0 <=? r then encodeRune r +:+ acc else acc)
    "" (runes s).

Fixpoint isASCII (s : string) : bool :=
  match s with
  | "" => true
  | String c rest =>
    if byte_val c >=? utf8.RuneSelf then false else isASCII rest
  end.

Fixpoint lowerASCII (s : string) : string :=
  match s with
  | "" => ""
  | String c rest =>
    let c' :=
      if (byte_val "A" <=? byte_val c) && (byte_val c <=? byte_val "Z")
      then ascii_of_N (Z.to_N (byte_val c + (byte_val "a" - byte_val "A")))
      else c in
    String c' (lowerASCII rest)
  end.

(** [ToLower(s)]: the byte loop on an ASCII string, [Map(unicode.ToLower, s)]
    otherwise. *)
Definition ToLower (s : string) : string :=
  if isASCII s then lowerASCII s else Map unicode.ToLower s.

Fixpoint HasPrefix (s prefix : string) : bool :=
  match prefix, s with
  | "", _ => true
  | String p prefix', String c s' =>
    if Ascii.eqb p c then HasPrefix s' prefix' else false
  | String _ _, "" => false
  end.

(** [Contains(s, substr)]: [substr] occurs in [s] at some index. *)
Fixpoint Contains (s substr : string) : bool :=
  if HasPrefix s substr then true
  else
    match s with
    | "" => false
    | String _ s' => Contains s' substr
    end.

(** The byte [c] is one of the bytes of [cutset] ([asciiSet.contains]). *)
Fixpoint contains_byte (cutset : string) (c : ascii) : bool :=
  match cutset with
  | "" => false
  | String b rest => Ascii.eqb b c || contains_byte rest c
  end.

(** [trimLeftASCII]: the bytes of the set are taken off the front. *)
Fixpoint trimLeftASCII (s cutset : string) : string :=
  match s with
  | "" => ""
  | String c rest =>
    if contains_byte cutset c then trimLeftASCII rest cutset else s
  end.

(** [trimRightASCII]: the bytes of the set are taken off the end. *)
Fixpoint trimRightASCII (s cutset : string) : string :=
  match s with
  | "" => ""
  | String c rest =>
    let rest' := trimRightASCII rest cutset in
    if String.eqb rest' "" && contains_byte cutset c then ""
    else String c rest'
  end.

(** [Trim(s, cutset)] for a [cutset] of ASCII bytes. *)
Definition Trim (s cutset : string) : string :=
  trimLeftASCII (trimRightASCII s cutset) cutset.

(** [Split(s, sep)] for a separator [sep] of one byte: the pieces of [s]
    between the occurrences of [sep], one more than there are
    occurrences. *)
Fixpoint Split (s : string) (sep : ascii) : list string :=
  match s with
  | "" => [""]
  | String c rest =>
    if Ascii.eqb c sep then "" :: Split rest sep
    else
      match Split rest sep with
      | piece :: pieces => String c piece :: pieces
      | [] => [String c ""]
      end
  end.

End Tables.
End strings.

(** ** Package [strconv] *)

Module strconv.

Definition maxUint64 : Z := 2 ^ 64 - 1.

(** The loop of [ParseUint(s, 10, bitSize)] from the accumulator [n];
    with base 10 a letter is a digit beyond the base, a syntax error like
    any other byte. *)
Fixpoint ParseUint_loop (s0 : string) (maxVal : Z) (n : Z) (s : string)
  : Z + error :=
  match s with
  | "" => inl n
  | String c rest =>
    if (byte_val "0" <=? byte_val c) && (byte_val c <=? byte_val "9") then
      let d := byte_val c - byte_val "0" in
      let cutoff := maxUint64 / 10 + 1 in
      if n >=? cutoff then inr (NumError "ParseUint" s0 ErrRange)
      else
        let n := (n * 10) mod 2 ^ 64 in
        let n1 := (n + d) mod 2 ^ 64 in
        if (n1 <? n) || (maxVal <? n1)
        then inr (NumError "ParseUint" s0 ErrRange)
        else ParseUint_loop s0 maxVal n1 rest
    else inr (NumError "ParseUint" s0 ErrSyntax)
  end.

(** [ParseUint(s, 10, bitSize)] for [0 < bitSize <= 64]. *)
Definition ParseUint (s : string) (bitSize : Z) : Z + error :=
  if String.eqb s "" then inr (NumError "ParseUint" s ErrSyntax)
  else
    let maxVal := Z.shiftl 1 bitSize - 1 in
    ParseUint_loop s maxVal 0 s.

(** [Itoa(i)]. *)
Definition Itoa (i : Z) : string := NilZero.string_of_int (Z.to_int i).

End strconv.

(** ** Loading ([loadData], [loadMultipleData], [load], [reload]) *)

(** What a load takes from outside the program.  [fetch quarter] is the
    outcome of [http.Get], [io.ReadAll] and [json.Unmarshal] for one
    quarter: the decoded [Data] or the error.  [goroutineOrder quarters] is
    the order in which the goroutines of one [loadMultipleData] enter their
    critical sections: each goroutine has a single one (an append under
    [errorsMutex] or under [transactionMutex]), so a run is determined by
    that order, which the scheduler picks among the permutations of
    [quarters]. *)
Class Upstream := {
  fetch : string -> list transaction + error;
  goroutineOrder : list string -> list string;
  goroutineOrder_perm : forall quarters, goroutineOrder quarters ≡ₚ quarters
}.

(** The shared variables of [loadMultipleData] while its goroutines run. *)
Record loading := {
  printed : list event;
  errs : list error;
  loaded : list transaction
}.

Section Loading.
Context `{UnicodeTables} `{Upstream}.

Definition loadData (quarter : string)
  : list event * (list transaction + error) :=
  if negb (isValidQuarter quarter) then
    ([], inr (errorString (quarter +:+ " is not a valid quarter")))
  else
    ([Printf ("Loading data for quarter %s" +:+ nl) [a_string quarter]],
     fetch quarter).

(** One goroutine of [loadMultipleData], run to its end. *)
Definition goroutine (st : loading) (quarter : string) : loading :=
  let '(out, result) := loadData quarter in
  match result with
  | inr err =>
    {| printed := printed st ++ out;
       errs := errs st ++ [err];
       loaded := loaded st |}
  | inl transactions =>
    {| printed := printed st ++ out;
       errs := errs st;
       loaded := loaded st ++ transactions |}
  end.

(** [loadMultipleData(quarters, data)]: the output, the store [*data]
    afterwards and the returned error.  Each goroutine loads the quarter
    of its own iteration (the loop variable is per iteration, as in Go
    1.22); [waitGroup.Wait] lets the function return once all are done.
    The progress lines are put in the order of the critical sections. *)
Definition loadMultipleData (quarters : list string) (data : list transaction)
  : list event * list transaction * option error :=
  if (length quarters =? 0)%nat then
    ([], data,
     Some (errorString "at least one quarter to be loaded must be specified"))
  else
    let st :=
      fold_left goroutine (goroutineOrder quarters)
                {| printed := []; errs := []; loaded := data |} in
    (printed st, loaded st, errors_Join (errs st)).

(** [loadFeature.Run]: the output and the store afterwards. *)
Definition loadFeature_Run (quarters : list string) (data : list transaction)
  : list event * list transaction :=
  let '(out, data', err) := loadMultipleData quarters data in
  match err with
  | Some e => (out ++ [Printf ("%v" +:+ nl) [a_error e]], data')
  | None => (out, data')
  end.

(** The builtin [clear] on a slice: every element becomes the zero value,
    the length stays. *)
Definition clear (data : list transaction) : list transaction :=
  map (fun _ => zero_transaction) data.

(** [reloadFeature.Run]. *)
Definition reloadFeature_Run (quarters : list string) (data : list transaction)
  : list event * list transaction :=
  loadFeature_Run quarters (clear data).

End Loading.

(** ** The Go runtime and library behind the reports *)

(** [less] orders the elements of [l] as a strict weak order, which is what
    [sort.Slice] asks of its comparator. *)
Definition strict_weak_on {A : Type} (less : A -> A -> bool) (l : list A)
  : Prop :=
  (forall x, x ∈ l -> less x x = false) /\
  (forall x y z, x ∈ l -> y ∈ l -> z ∈ l ->
     less x y = true -> less y z = true -> less x z = true) /\
  (forall x y z, x ∈ l -> y ∈ l -> z ∈ l ->
     less x y = false -> less y z = false -> less x z = false).

(** No element of [l] is less than one that stands before it. *)
Definition sorted_by {A : Type} (less : A -> A -> bool) (l : list A) : Prop :=
  forall i j x y,
    (i < j)%nat -> l !! i = Some x -> l !! j = Some y -> less y x = false.

(** What the reports take from the runtime and the library.  A [range]
    over a map visits its entries once each in an order of the runtime's
    choosing.  [sort.Slice] permutes the slice, and sorts it when the
    comparator is a strict weak order on its elements.  [math.Log10] is
    taken as it comes.  The conversion of a float that is not finite or
    does not fit [int] is implementation-defined. *)
Class GoRuntime := {
  mapRange : forall V : Type, gmap string V -> list (string * V);
  mapRange_perm :
    forall (V : Type) (m : gmap string V), mapRange V m ≡ₚ map_to_list m;
  sort_Slice : forall A : Type, (A -> A -> bool) -> list A -> list A;
  sort_Slice_perm :
    forall (A : Type) (less : A -> A -> bool) (l : list A),
      sort_Slice A less l ≡ₚ l;
  sort_Slice_sorted :
    forall (A : Type) (less : A -> A -> bool) (l : list A),
      strict_weak_on less l -> sorted_by less (sort_Slice A less l);
  math_Log10 : float -> float;
  int_of_float64_undefined : float -> Z
}.

Arguments mapRange {_ _} _.
Arguments sort_Slice {_ _} _ _.

(** Wrap-around of [int] (64 bits). *)
Definition int64 (z : Z) : Z := (z + 2 ^ 63) mod 2 ^ 64 - 2 ^ 63.

(** [int(f)] for a [float64]: the fraction is discarded. *)
Definition int_of_float64 `{GoRuntime} (f : float) : Z :=
  match Prim2SF f with
  | S754_zero _ => 0
  | S754_finite s m e =>
    let mag := if 0 <=? e then Z.pos m * 2 ^ e else Z.pos m / 2 ^ (- e) in
    let z := if s then - mag else mag in
    if (- 2 ^ 63 <=? z) && (z <? 2 ^ 63) then z
    else int_of_float64_undefined f
  | _ => int_of_float64_undefined f
  end.

(** ** The reports ([top], [search], [details] and the listings) *)

Record stringFloatPair := { str : string; value : float }.

Definition invalid_role_format : string :=
  "Value %s for parameter 2 is invalid: Allowed values are ['payers', 'recipients']"
  +:+ nl.

Section Reports.
Context `{UnicodeTables} `{GoRuntime}.

(** The slice a loop [for key, value := range m] appends to. *)
Definition pairs_of (m : gmap string float) : list stringFloatPair :=
  map (fun kv => {| str := fst kv; value := snd kv |}) (mapRange m).

(** The comparator [slice[i].value > slice[j].value]. *)
Definition by_value_desc (a b : stringFloatPair) : bool :=
  (value b <? value a)%float.

(** The loop that finds the longest [len(pair.str)]. *)
Definition maxStringLength_of (slice : list stringFloatPair) : Z :=
  fold_left
    (fun maxStringLength pair =>
       let length := Z.of_nat (String.length (str pair)) in
       if length >? maxStringLength then length else maxStringLength)
    slice 0.

(** [int(math.Log10(v)) + 1]. *)
Definition maxFloatWidth_of (v : float) : Z :=
  int64 (int_of_float64 (math_Log10 v) + 1).

(** The format of a report row. *)
Definition row_format (maxStringLength maxFloatWidth : Z) : string :=
  tab +:+ "%3d. %" +:+ strconv.Itoa maxStringLength +:+ "s - %"
      +:+ strconv.Itoa maxFloatWidth +:+ ".2f€" +:+ nl.

(** The row loop of [top] and [printAll]. *)
Definition print_rows (maxStringLength maxFloatWidth : Z)
  (slice : list stringFloatPair) : list event :=
  imap
    (fun idx pair =>
       Printf (row_format maxStringLength maxFloatWidth)
              [a_int (Z.of_nat idx + 1); a_string (str pair);
               a_float (value pair)])
    slice.

(** One iteration of the grouping loop of [top]. *)
Definition top_step (mapper : transaction -> string) (bekanntgabe : Z)
  (m : gmap string float) (t : transaction) : gmap string float :=
  if negb (Bekanntgabe t =? bekanntgabe mod 2 ^ 8) then m
  else
    let key := mapper t in
    match m !! key with
    | Some euro => <[key := (euro + float64_of_float32 (Euro t))%float]> m
    | None => <[key := float64_of_float32 (Euro t)]> m
    end.

(** [topFeature.Run]. *)
Definition topFeature_Run (arguments : list string) (data : list transaction)
  : outcome :=
  match arguments with
  | [arg0; arg1; arg2] =>
    match strconv.ParseUint arg0 8 with
    | inr err =>
      Done [Printf ("Value %s for parameter 1 is invalid: %v" +:+ nl)
                   [a_string arg0; a_error err]]
    | inl amount =>
      let por := strings.ToLower arg1 in
      match (if String.eqb por "payers" then Some getRechtstraeger
             else if String.eqb por "recipients" then Some getMedieninhaber
             else None) with
      | None => Done [Printf invalid_role_format [a_string arg1]]
      | Some mapper =>
        match strconv.ParseUint arg2 8 with
        | inr err =>
          Done [Printf ("Value %s for parameter 3 is invalid: %v" +:+ nl)
                       [a_string arg2; a_error err]]
        | inl bekanntgabe =>
          if amount <=? 0 then
            Done [Printf ("%d is not a valid input for parameter amount" +:+ nl)
                         [a_int amount]]
          else if negb (bekanntgabe =? 2) && negb (bekanntgabe =? 4)
                  && negb (bekanntgabe =? 31) then
            Done [Printf ("%d is not a valid input for parameter bekanntgabe"
                          +:+ nl) [a_int bekanntgabe]]
          else
            let m := fold_left (top_step mapper bekanntgabe) data ∅ in
            let capacity := Z.of_nat (size m) in
            let slice := sort_Slice by_value_desc (pairs_of m) in
            match slice with
            | [] => Panic [] (index_out_of_range 0 0)
            | first :: _ =>
              let maxFloatWidth := maxFloatWidth_of (value first) in
              let maxStringLength := maxStringLength_of slice in
              if capacity <? amount then
                Panic [] (slice_bounds_out_of_range amount capacity)
              else
                Done (print_rows maxStringLength maxFloatWidth
                                 (take (Z.to_nat amount) slice))
            end
        end
      end
    end
  | _ => Done [Println "Wrong syntax for command top"]
  end.

(** The loop of [search] over the store; [None] when it calls the nil
    [mapper]. *)
Fixpoint search_loop (mapper : option (transaction -> string))
  (searchTerm : string) (data : list transaction) (set : gmap string unit)
  : option (gmap string unit) :=
  match data with
  | [] => Some set
  | t :: rest =>
    match mapper with
    | None => None
    | Some f =>
      let str := f t in
      if strings.Contains (strings.ToLower str) searchTerm
      then search_loop mapper searchTerm rest (<[str := tt]> set)
      else search_loop mapper searchTerm rest set
    end
  end.

(** [searchFeature.Run]. *)
Definition searchFeature_Run (arguments : list string)
  (data : list transaction) : outcome :=
  if (length arguments <? 2)%nat then
    Done [Println "At least two parameters need to be provided"]
  else
    let por := nth 0 arguments "" in
    let '(mapper, out) :=
      if String.eqb por "payers" then (Some getRechtstraeger, [])
      else if String.eqb por "recipients" then (Some getMedieninhaber, [])
      else (None, [Printf invalid_role_format [a_string por]]) in
    let searchTerm := strings.ToLower (strings.Join (drop 1 arguments) " ") in
    match search_loop mapper searchTerm data ∅ with
    | None => Panic out nil_func_call
    | Some set =>
      let slice := sort_Slice lessLower (map fst (mapRange set)) in
      Done (out ++
            imap (fun idx str =>
                    Printf (tab +:+ "%d. %s" +:+ nl)
                           [a_int (Z.of_nat idx + 1); a_string str])
                 slice)
    end.

(** [printAll]. *)
Definition printAll (m : gmap string float) : list event :=
  let length := size m in
  if (length =? 0)%nat then []
  else
    let slice := sort_Slice by_value_desc (pairs_of m) in
    match slice with
    | [] => []
    | first :: _ =>
      print_rows (maxStringLength_of slice) (maxFloatWidth_of (value first))
                 slice
    end.

(** The loop of [details] over the store; [None] when it assigns to an
    entry of the nil map that [m] gives for a paragraph it does not hold. *)
Fixpoint details_loop (mapper reverseMapper : transaction -> string)
  (organization : string) (data : list transaction)
  (m : gmap Z (gmap string float)) : option (gmap Z (gmap string float)) :=
  match data with
  | [] => Some m
  | t :: rest =>
    if String.eqb (mapper t) organization then
      match m !! Bekanntgabe t with
      | None => None
      | Some a =>
        let key := reverseMapper t in
        let sum := (default 0%float (a !! key)
                    + float64_of_float32 (Euro t))%float in
        details_loop mapper reverseMapper organization rest
                     (<[Bekanntgabe t := <[key := sum]> a]> m)
      end
    else details_loop mapper reverseMapper organization rest m
  end.

(** [detailsFeature.Run]. *)
Definition detailsFeature_Run (arguments : list string)
  (data : list transaction) : outcome :=
  if (length arguments <? 1)%nat then
    Done [Println "At least one parameter needs to be provided"]
  else
    let por := nth 0 arguments "" in
    match (if String.eqb por "payers"
           then Some (getRechtstraeger, getMedieninhaber)
           else if String.eqb por "recipients"
           then Some (getMedieninhaber, getRechtstraeger)
           else None) with
    | None => Done [Printf invalid_role_format [a_string por]]
    | Some (mapper, reverseMapper) =>
      let organization := strings.Join (drop 1 arguments) " " in
      let m : gmap Z (gmap string float) :=
        <[31 := ∅]> (<[4 := ∅]> (<[2 := ∅]> ∅)) in
      match details_loop mapper reverseMapper organization data m with
      | None => Panic [] nil_map_assignment
      | Some m =>
        Done ([Println (tab +:+ "Payments §2:")]
              ++ printAll (default ∅ (m !! 2))
              ++ [Println (tab +:+ "Payments §4:")]
              ++ printAll (default ∅ (m !! 4))
              ++ [Println (tab +:+ "Payments §31:")]
              ++ printAll (default ∅ (m !! 31)))
      end
    end.

(** [printUniqueResults]. *)
Definition printUniqueResults (mapper : transaction -> string)
  (transactions : list transaction) : list event :=
  let set : gmap string unit :=
    fold_left
      (fun set t =>
         let s := mapper t in
         match set !! s with
         | Some _ => set
         | None => <[s := tt]> set
         end)
      transactions ∅ in
  let keys := sort_Slice lessLower (map fst (mapRange set)) in
  map (fun s => Printf (tab +:+ "%s" +:+ nl) [a_string s]) keys.

End Reports.

(** ** The command loop of [main] *)

(** The variables of [main] that commands share: the store [data] and the
    flag [isRunning]. *)
Record repl := { store : list transaction; running : bool }.

Definition help_text : list event :=
  [Println (tab +:+ "quit | exit ... quits the program");
   Println (tab +:+ "help ... shows this message");
   Println (tab +:+ "payers ... prints a sorted list of all payers");
   Println (tab +:+ "recipients ... prints a sorted list of all recipients");
   Println (tab +:+ "quarters ... prints a list of loaded quarters");
   Println (tab +:+ "top n <payers|recipients> <§2|§4|§31> ... prints the top n payers/recipients for given paragraph");
   Println (tab +:+ "search <payers|recipients> searchTerm ... prints a list of payers/recipients containing the given search term");
   Println (tab +:+ "details <payers|recipients> organization ... prints a list of all payments payed or received by the given payer/recipient")].

Section Repl.
Context `{UnicodeTables} `{Upstream} `{GoRuntime}.

(** One turn of the loop of [main] on the words [cli] of the line read:
    the feature chosen by [cli[0]] is run.  A [Panic] ends the process;
    otherwise the loop goes on while [running] holds. *)
Definition feature_Run (cli : list string) (st : repl) : outcome * repl :=
  let command := strings.ToLower (nth 0 cli "") in
  let arguments := drop 1 cli in
  if String.eqb command "help" then (Done help_text, st)
  else if String.eqb command "exit" || String.eqb command "quit" then
    (Done [], {| store := store st; running := false |})
  else if String.eqb command "payers" then
    (Done (printUniqueResults getRechtstraeger (store st)), st)
  else if String.eqb command "recipients" then
    (Done (printUniqueResults getMedieninhaber (store st)), st)
  else if String.eqb command "quarters" then
    (Done (printUniqueResults getQuartal (store st)), st)
  else if String.eqb command "load" then
    let '(out, data) := loadFeature_Run arguments (store st) in
    (Done out, {| store := data; running := running st |})
  else if String.eqb command "reload" then
    let '(out, data) := reloadFeature_Run arguments (store st) in
    (Done out, {| store := data; running := running st |})
  else if String.eqb command "top" then
    (topFeature_Run arguments (store st), st)
  else if String.eqb command "search" then
    (searchFeature_Run arguments (store st), st)
  else if String.eqb command "details" then
    (detailsFeature_Run arguments (store st), st)
  else (Done [Println "Unkown Command"], st).

End Repl.

(** ** [main] *)

(** A call of [main] that writes to standard output: a call as the
    commands make them, or [fmt.Print]. *)
Inductive call :=
| Out (e : event)
| fmt_Print (s : string).

(** Where a run of [main] stands once the reads it was given are used up:
    it has returned, it has ended in a panic, or it is in the next
    [ReadString]. *)
Inductive ending :=
| Returned (st : repl)
| Panicked (p : panic)
| Reading (st : repl).

Definition prompt : list call :=
  [Out (Println "Please enter a command or type 'help' for more information");
   fmt_Print "> "].

Section Main.
Context `{UnicodeTables} `{Upstream} `{GoRuntime}.

(** The loop of [main] and the [Println] after it.  [reads] holds what
    the calls of [reader.ReadString] return, one after the other: the text
    read, or the error. *)
Fixpoint main_loop (reads : list (string + error)) (st : repl)
  : list call * ending :=
  if negb (running st) then ([Out (Println "Bye!")], Returned st)
  else
    match reads with
    | [] => (prompt, Reading st)
    | inr err :: reads' =>
      let '(out, e) := main_loop reads' st in
      (prompt ++ [Out (Printf ("An error occured: %v" +:+ nl) [a_error err])]
              ++ out, e)
    | inl text :: reads' =>
      let text := strings.Trim text (" " +:+ tab +:+ nl) in
      let cli := strings.Split text " " in
      if (length cli =? 0)%nat then
        let '(out, e) := main_loop reads' st in (prompt ++ out, e)
      else
        match feature_Run cli st with
        | (Done out, st') =>
          let '(out', e) := main_loop reads' st' in
          (prompt ++ map Out out ++ out', e)
        | (Panic out p, _) => (prompt ++ map Out out, Panicked p)
        end
    end.

(** [main] on the arguments [args] of the command line. *)
Definition main (args : list string) (reads : list (string + error))
  : list call * ending :=
  let '(out, data, err) := loadMultipleData args [] in
  let failed :=
    match err with
    | Some e =>
      [Printf ("An error occured while loading data: %v" +:+ nl) [a_error e]]
    | None => []
    end in
  let '(out', e) := main_loop reads {| store := data; running := true |} in
  (map Out (out ++ failed ++ [Println "Welcome to the Go-Microproject!"])
     ++ out', e).

End Main.

(** ** Package [fmt], as far as the reports use it *)

Module fmt.

Definition is_digit (c : ascii) : bool :=
  (byte_val "0" <=? byte_val c) && (byte_val c <=? byte_val "9").

(** The value of a run of decimal digits. *)
Fixpoint number (acc : nat) (s : string) : nat * string :=
  match s with
  | String c rest =>
    if is_digit c
    then number (acc * 10 + Z.to_nat (byte_val c - byte_val "0")) rest
    else (acc, s)
  | "" => (acc, s)
  end.

Fixpoint repeat_string (n : nat) (s : string) : string :=
  match n with
  | O => ""
  | S n' => s +:+ repeat_string n' s
  end.

(** Padding with spaces to [width] runes, on the left unless [minus]. *)
Definition pad (minus : bool) (width : nat) (s : string) : string :=
  let n := length (runes s) in
  let padding := repeat_string (width - n) " " in
  if minus then s +:+ padding else padding +:+ s.

(** The decimal digits of [z >= 0], at least [n] of them. *)
Definition digits (n : nat) (z : Z) : string :=
  let s := strconv.Itoa z in
  repeat_string (n - String.length s) "0" +:+ s.

(** The verb [%.<prec>f] on a finite [float64]: the decimal expansion of
    the exact value, rounded to [prec] places, a tie to the even digit. *)
Definition fixed (prec : nat) (f : float) : option string :=
  let render (s : bool) (q : Z) : string :=
    let scale := 10 ^ Z.of_nat prec in
    (if s then "-" else "") +:+ strconv.Itoa (q / scale)
    +:+ (if (prec =? 0)%nat then "" else "." +:+ digits prec (q mod scale)) in
  match Prim2SF f with
  | S754_zero s => Some (render s 0)
  | S754_finite s m e =>
    let num := Z.pos m * 10 ^ Z.of_nat prec * (if 0 <=? e then 2 ^ e else 1) in
    let den := if 0 <=? e then 1 else 2 ^ (- e) in
    let q := num / den in
    let r := num mod den in
    let q :=
      if 2 * r >? den then q + 1
      else if 2 * r =? den then (if Z.even q then q else q + 1)
      else q in
    Some (render s q)
  | _ => None
  end.

(** The text of an error, for those whose text the program fixes. *)
Definition error_text (e : error) : option string :=
  match e with
  | errorString msg => Some msg
  | _ => None
  end.

Definition no_prec (prec : option nat) : bool :=
  match prec with
  | None => true
  | Some _ => false
  end.

(** One operand under one verb. *)
Definition verb (v : ascii) (minus : bool) (width : nat) (prec : option nat)
  (a : arg) : option string :=
  match a with
  | a_string s =>
    if (Ascii.eqb v "s" || Ascii.eqb v "v") && no_prec prec
    then Some (pad minus width s) else None
  | a_int z =>
    if (Ascii.eqb v "d" || Ascii.eqb v "v") && no_prec prec
    then Some (pad minus width (strconv.Itoa z)) else None
  | a_float f =>
    match prec with
    | Some p =>
      if Ascii.eqb v "f" then pad minus width <$> fixed p f else None
    | None => None
    end
  | a_error e =>
    if Ascii.eqb v "v" && no_prec prec
    then pad minus width <$> error_text e else None
  end.

(** [Sprintf] on the directives [%[-][0][width][.prec]verb] with the verbs
    [d], [s], [f] and [v]; [None] on anything else, on a zero flag that
    has a width to pad to, and on missing operands.  [fuel] bounds the
    number of directives and text bytes. *)
Fixpoint Sprintf_loop (fuel : nat) (format : string) (args : list arg)
  : option string :=
  match fuel with
  | O => None
  | S fuel' =>
    match format with
    | "" => match args with [] => Some "" | _ => None end
    | String "%" rest =>
      let fix flags (n : nat) (minus zero : bool) (s : string)
        : bool * bool * string :=
        match n, s with
        | S n', String "-" s' => flags n' true zero s'
        | S n', String "0" s' => flags n' minus (negb minus) s'
        | _, _ => (minus, zero, s)
        end in
      let '(minus, zero, rest) := flags (String.length rest) false false rest in
      let '(width, rest') := number 0 rest in
      let has_width := negb (String.length rest' =? String.length rest)%nat in
      let '(prec, rest'') :=
        match rest' with
        | String "." r => let '(p, r') := number 0 r in (Some p, r')
        | _ => (None, rest')
        end in
      match rest'', args with
      | String v tail, a :: args' =>
        if zero && has_width then None
        else
          match verb v minus width prec a, Sprintf_loop fuel' tail args' with
          | Some s, Some t => Some (s +:+ t)
          | _, _ => None
          end
      | _, _ => None
      end
    | String c rest =>
      String c <$> Sprintf_loop fuel' rest args
    end
  end.

Definition Sprintf (format : string) (args : list arg) : option string :=
  Sprintf_loop (S (String.length format)) format args.

(** The text an output call writes. *)
Definition text_of (e : event) : option string :=
  match e with
  | Println s => Some (s +:+ nl)
  | Printf format args => Sprintf format args
  end.

(** The text of a whole output, call by call. *)
Definition texts_of (out : list event) : option (list string) :=
  mapM text_of out.

End fmt.

(** * The vocabulary of the properties *)

(** ** The order behind the comparator *)

(** The rune sequence on which [lessLower] compares two strings. *)
Definition folded `{UnicodeTables} (s : string) : list Z :=
  map unicode.ToLower (runes s).

(** Lexicographic "less" on rune sequences, a proper prefix being less. *)
Fixpoint lex_lt (x y : list Z) {struct y} : bool :=
  match y with
  | [] => false
  | b :: y' =>
    match x with
    | [] => true
    | a :: x' => if negb (a =? b) then a <? b else lex_lt x' y'
    end
  end.

(** ** Loading *)

Section LoadingSpec.
Context `{UnicodeTables} `{Upstream}.

(** The records a quarter contributes: those its load returns, none when
    the load fails. *)
Definition records (quarter : string) : list transaction :=
  match snd (loadData quarter) with
  | inl transactions => transactions
  | inr _ => []
  end.

(** The error a quarter contributes, if its load fails. *)
Definition failure (quarter : string) : option error :=
  match snd (loadData quarter) with
  | inl _ => None
  | inr err => Some err
  end.

Definition fails (quarter : string) : bool :=
  match failure quarter with
  | Some _ => true
  | None => false
  end.

(** What the upstream holds for a quarter: the data it answers with,
    nothing when it answers with an error. *)
Definition upstream_data (quarter : string) : list transaction :=
  match fetch quarter with
  | inl transactions => transactions
  | inr _ => []
  end.

(** Why a quarter does not load, if it does not: its code is no quarter
    code, or the upstream answers its request with an error. *)
Definition cause_of (quarter : string) : option error :=
  if isValidQuarter quarter then
    match fetch quarter with
    | inl _ => None
    | inr err => Some err
    end
  else Some (errorString (quarter +:+ " is not a valid quarter")).

(** A quarter loads when nothing keeps it from loading. *)
Definition loads (quarter : string) : bool :=
  match cause_of quarter with
  | None => true
  | Some _ => false
  end.

(** The causes joined in an error value. *)
Definition causes (err : option error) : list error :=
  match err with
  | Some (joinError errs) => errs
  | Some e => [e]
  | None => []
  end.

End LoadingSpec.

(** [err.Error()], for the errors whose text the program fixes: the
    message of an [errorString]; for a join, the texts of its causes with
    a newline between one and the next, so each on a line of its own. *)
Fixpoint Error_text (err : error) : option string :=
  match err with
  | errorString msg => Some msg
  | NumError _ _ _ => None
  | joinError errs =>
    match
      (fix texts (errs : list error) : option (list string) :=
         match errs with
         | [] => Some []
         | e :: errs' =>
           match Error_text e, texts errs' with
           | Some t, Some ts => Some (t :: ts)
           | _, _ => None
           end
         end) errs
    with
    | Some ts => Some (strings.Join ts nl)
    | None => None
    end
  end.

(** ** The reports *)

(** The role and paragraph arguments of a valid invocation. *)
Inductive role := payers | recipients.

Definition role_token (r : role) : string :=
  match r with
  | payers => "payers"
  | recipients => "recipients"
  end.

Definition role_mapper (r : role) : transaction -> string :=
  match r with
  | payers => getRechtstraeger
  | recipients => getMedieninhaber
  end.

Definition counterparty (r : role) : transaction -> string :=
  match r with
  | payers => getMedieninhaber
  | recipients => getRechtstraeger
  end.

Inductive paragraph := par2 | par4 | par31.

Definition paragraph_token (p : paragraph) : string :=
  match p with
  | par2 => "2"
  | par4 => "4"
  | par31 => "31"
  end.

Definition paragraph_code (p : paragraph) : Z :=
  match p with
  | par2 => 2
  | par4 => 4
  | par31 => 31
  end.

(** The distinct groups of a role under a paragraph, and their number. *)
Definition group_keys (r : role) (p : paragraph) (data : list transaction)
  : list string :=
  remove_dups
    (map (role_mapper r)
         (filter (fun t => Bekanntgabe t = paragraph_code p) data)).

Definition group_count (r : role) (p : paragraph) (data : list transaction)
  : nat :=
  length (group_keys r p data).

(** ** The report of [details] *)

(** [a[key] += euro]. *)
Definition credit (key : string) (euro : float) (a : gmap string float)
  : gmap string float :=
  <[key := (default 0%float (a !! key) + euro)%float]> a.

(** The transactions of the organization: those whose payer (recipient)
    is the organization name itself. *)
Definition matching (r : role) (organization : string)
  (data : list transaction) : list transaction :=
  filter (fun t => role_mapper r t = organization) data.

(** The sums per counterparty of the transactions of one paragraph. *)
Definition bucket (r : role) (code : Z) (a : gmap string float)
  (ts : list transaction) : gmap string float :=
  fold_left
    (fun a t => credit (counterparty r t) (float64_of_float32 (Euro t)) a)
    (filter (fun t => Bekanntgabe t = code) ts) a.

Definition known_paragraph (t : transaction) : bool :=
  (Bekanntgabe t =? 2) || (Bekanntgabe t =? 4) || (Bekanntgabe t =? 31).

(** The report of [details], from the words of the specification: the
    three labelled sections over the transactions of the organization. *)
Definition details_report `{GoRuntime} (r : role) (organization : string)
  (data : list transaction) : outcome :=
  let ts := matching r organization data in
  if forallb known_paragraph ts then
    Done ([Println (tab +:+ "Payments §2:")]
          ++ printAll (bucket r 2 ∅ ts)
          ++ [Println (tab +:+ "Payments §4:")]
          ++ printAll (bucket r 4 ∅ ts)
          ++ [Println (tab +:+ "Payments §31:")]
          ++ printAll (bucket r 31 ∅ ts))
  else Panic [] nil_map_assignment.

(** The map [m] of [details] with its three entries. *)
Definition sections (a2 a4 a31 : gmap string float)
  : gmap Z (gmap string float) :=
  <[31 := a31]> (<[4 := a4]> (<[2 := a2]> ∅)).

(** ** Decimal numerals *)

Fixpoint all_digits (s : string) : bool :=
  match s with
  | "" => true
  | String c rest => fmt.is_digit c && all_digits rest
  end.

(** The number a run of decimal digits denotes, after the digits that
    gave [acc]. *)
Fixpoint decimal_value (acc : Z) (s : string) : Z :=
  match s with
  | "" => acc
  | String c rest => decimal_value (acc * 10 + (byte_val c - byte_val "0")) rest
  end.

(** The integer a string denotes in decimal notation: digits, with an
    optional sign before them. *)
Definition denotes (s : string) : option Z :=
  let unsigned (ds : string) : option Z :=
    if negb (String.eqb ds "") && all_digits ds
    then Some (decimal_value 0 ds) else None in
  match s with
  | String "-" ds => Z.opp <$> unsigned ds
  | String "+" ds => unsigned ds
  | _ => unsigned s
  end.

(** ** The worked example of [top] *)

(** The store [{(A, 10, §2), (B, 30, §2), (A, 5, §4)}]; recipients and
    quarters are any. *)
Definition example_store (ma mb mc qa qb qc : string) : list transaction :=
  [ {| Rechtstraeger := "A"; Quartal := qa; Bekanntgabe := 2;
       Medieninhaber := ma; Euro := 10%float |};
    {| Rechtstraeger := "B"; Quartal := qb; Bekanntgabe := 2;
       Medieninhaber := mb; Euro := 30%float |};
    {| Rechtstraeger := "A"; Quartal := qc; Bekanntgabe := 4;
       Medieninhaber := mc; Euro := 5%float |} ].

Definition pair_A : stringFloatPair := {| str := "A"; value := 10%float |}.

Definition pair_B : stringFloatPair := {| str := "B"; value := 30%float |}.

(** ** The sums of [top] *)

(** The amounts of the records of the group [key] under the paragraph
    [code], in the order of the store. *)
Definition group_amounts (r : role) (code : Z) (key : string)
  (data : list transaction) : list float :=
  map (fun t => float64_of_float32 (Euro t))
      (filter (fun t => Bekanntgabe t = code /\ role_mapper r t = key) data).

(** The sum of a group: its first amount, to which the further ones are
    added one by one; none when the group has no record. *)
Definition group_sum (r : role) (code : Z) (key : string)
  (data : list transaction) : option float :=
  match group_amounts r code key data with
  | [] => None
  | x :: xs => Some (fold_left PrimFloat.add xs x)
  end.

(** ** The order of [float64] values *)

(** A place on a line for every value that is not a NaN: the sign class
    first, then exponent and mantissa, mirrored below zero. *)
Definition SF_key (f : spec_float) : Z * Z * Z :=
  match f with
  | S754_infinity true => (-2, 0, 0)
  | S754_finite true m e => (-1, - e, - Z.pos m)
  | S754_zero _ => (0, 0, 0)
  | S754_nan => (0, 0, 0)
  | S754_finite false m e => (1, e, Z.pos m)
  | S754_infinity false => (2, 0, 0)
  end.

Definition lex3 (a b : Z * Z * Z) : Prop :=
  let '(a1, a2, a3) := a in
  let '(b1, b2, b3) := b in
  a1 < b1 \/ (a1 = b1 /\ (a2 < b2 \/ (a2 = b2 /\ a3 < b3))).

(** ** Lines of input *)

(** The bytes [main] trims off a line: space, tab and newline. *)
Definition cutset : string := " " +:+ tab +:+ nl.

(** A line of nothing but such bytes. *)
Definition blank (text : string) : bool :=
  forallb (strings.contains_byte cutset) (list_ascii_of_string text).

(** The command word of a line, as [main] takes it. *)
Definition command_of `{UnicodeTables} (text : string) : string :=
  strings.ToLower (nth 0 (strings.Split (strings.Trim text cutset) " ") "").

(** What [main] prints on a read that fails. *)
Definition read_error_line (err : error) : call :=
  Out (Printf ("An error occured: %v" +:+ nl) [a_error err]).

(** ** Tables, a runtime and an upstream to run the program on *)

(** The tables cut down to Latin-1: nothing beyond it is a digit or has a
    lower case.  They serve to run the program on concrete inputs. *)
Definition latin1Tables : UnicodeTables :=
  {| To_LowerCase := fun r => r; Digit_excludingLatin := fun _ => false |}.

(** Insertion of [x] into a sorted list, after the elements less than it. *)
Fixpoint insert_sorted {A : Type} (less : A -> A -> bool) (x : A)
  (l : list A) : list A :=
  match l with
  | [] => [x]
  | y :: l' => if less y x then y :: insert_sorted less x l' else x :: y :: l'
  end.

Definition insertion_sort {A : Type} (less : A -> A -> bool) (l : list A)
  : list A :=
  fold_right (insert_sorted less) [] l.

(** The number of decimal digits of [z > 0], less one. *)
Fixpoint digits_pred (fuel : nat) (z : Z) : Z :=
  match fuel with
  | O => 0
  | S fuel' => if z <? 10 then 0 else 1 + digits_pred fuel' (z / 10)
  end.

(** A stand-in for [math.Log10], exact on the integer part of the
    logarithm of a finite [v >= 1]: the number of decimal digits of the
    integer part of [v], less one. *)
Definition decimal_Log10 (v : float) : float :=
  match Prim2SF v with
  | S754_finite false m e =>
    let z := if 0 <=? e then Z.pos m * 2 ^ e else Z.pos m / 2 ^ (- e) in
    if z <? 1 then (-1)%float
    else PrimFloat.of_uint63 (Uint63.of_Z (digits_pred 400 z))
  | S754_zero _ => neg_infinity
  | S754_infinity false => infinity
  | _ => nan
  end.

Section InsertionSort.
Context {A : Type} (less : A -> A -> bool).

Lemma insert_sorted_perm (x : A) (l : list A) :
  insert_sorted less x l ≡ₚ x :: l.
Proof.
  induction l as [|y l IH]; simpl; [reflexivity|].
  destruct (less y x); [|reflexivity].
  rewrite IH. apply perm_swap.
Qed.

Lemma insertion_sort_perm (l : list A) : insertion_sort less l ≡ₚ l.
Proof.
  induction l as [|x l IH]; simpl; [reflexivity|].
  rewrite insert_sorted_perm. now rewrite IH.
Qed.

Lemma insert_sorted_sorted (dom : list A) (x : A) (l : list A) :
  strict_weak_on less dom ->
  x ∈ dom -> (forall y, y ∈ l -> y ∈ dom) ->
  StronglySorted (fun a b => less b a = false) l ->
  StronglySorted (fun a b => less b a = false) (insert_sorted less x l).
Proof.
  intros (Hirr & Htr & Hneg) Hx.
  induction l as [|y l IH]; intros Hdom Hs; simpl.
  - repeat constructor.
  - assert (y ∈ dom) as Hy by (apply Hdom; left).
    assert (forall z, z ∈ l -> z ∈ dom) as Hl by (intros z Hz; apply Hdom; now right).
    apply StronglySorted_inv in Hs as [Hs Hall].
    destruct (less y x) eqn:Hyx.
    + constructor; [now apply IH|].
      rewrite insert_sorted_perm. constructor; [|exact Hall].
      destruct (less x y) eqn:Hxy; [|reflexivity].
      rewrite <- (Hirr y Hy). symmetry. now apply (Htr y x y).
    + constructor; [now constructor|].
      constructor; [exact Hyx|].
      rewrite Forall_forall in Hall |- *.
      intros z Hz. apply (Hneg z y x); auto.
  Qed.

Lemma insertion_sort_sorted (l : list A) :
  strict_weak_on less l ->
  StronglySorted (fun a b => less b a = false) (insertion_sort less l).
Proof.
  intros Hswo.
  assert (forall k, (forall y, y ∈ k -> y ∈ l) ->
            StronglySorted (fun a b => less b a = false) (insertion_sort less k))
    as Hgen.
  { induction k as [|x k IH]; intros Hk; simpl; [constructor|].
    apply (insert_sorted_sorted l); auto.
    - apply Hk. left.
    - intros y Hy. rewrite insertion_sort_perm in Hy. apply Hk. now right.
    - apply IH. intros y Hy. apply Hk. now right. }
  apply Hgen. auto.
Qed.

Lemma StronglySorted_sorted_by (l : list A) :
  StronglySorted (fun a b => less b a = false) l -> sorted_by less l.
Proof.
  induction 1 as [|x l Hs IH Hall]; intros i j a b Hij Hi Hj.
  - now rewrite lookup_nil in Hi.
  - destruct j as [|j]; [lia|]. simpl in Hj.
    destruct i as [|i]; simpl in Hi.
    + injection Hi as <-. rewrite Forall_forall in Hall.
      apply Hall. now apply list_elem_of_lookup_2 in Hj.
    + apply (IH i j); auto. lia.
Qed.

End InsertionSort.

(** A runtime that ranges over a map in the order of its keys, sorts by
    insertion, takes [decimal_Log10] for the logarithm and converts what
    [int] cannot hold to the least [int]. *)
Definition demoRuntime : GoRuntime :=
  {| mapRange := fun V m => map_to_list m;
     mapRange_perm := fun V m => reflexivity (map_to_list m);
     sort_Slice := fun A less l => insertion_sort less l;
     sort_Slice_perm := fun A less l => insertion_sort_perm less l;
     sort_Slice_sorted := fun A less l Hswo =>
       StronglySorted_sorted_by less _ (insertion_sort_sorted less l Hswo);
     math_Log10 := decimal_Log10;
     int_of_float64_undefined := fun _ => - 2 ^ 63 |}.

(** An upstream that knows two quarters and whose goroutines finish in
    the reverse of the order they were started in. *)
Definition demoUpstream : Upstream :=
  {| fetch := fun quarter =>
       if String.eqb quarter "20231" then
         inl [ {| Rechtstraeger := "A"; Quartal := "20231"; Bekanntgabe := 2;
                  Medieninhaber := "M"; Euro := 10%float |} ]
       else if String.eqb quarter "20232" then
         inl [ {| Rechtstraeger := "B"; Quartal := "20232"; Bekanntgabe := 4;
                  Medieninhaber := "N"; Euro := 30%float |} ]
       else inr (errorString "404 Not Found");
     goroutineOrder := fun quarters => rev quarters;
     goroutineOrder_perm := fun quarters =>
       Permutation_sym (Permutation_rev quarters) |}.

Definition record_A : transaction :=
  {| Rechtstraeger := "A"; Quartal := "20231"; Bekanntgabe := 2;
     Medieninhaber := "M"; Euro := 10%float |}.

(** An upstream like [demoUpstream] but for its answer to a code that is
    no quarter. *)
Definition strayUpstream : Upstream :=
  {| fetch := fun quarter =>
       if String.eqb quarter "2023x" then inl [record_A]
       else @fetch demoUpstream quarter;
     goroutineOrder := fun quarters => rev quarters;
     goroutineOrder_perm := fun quarters =>
       Permutation_sym (Permutation_rev quarters) |}.

Definition record_AB : transaction :=
  {| Rechtstraeger := "A  B"; Quartal := "20231"; Bekanntgabe := 4;
     Medieninhaber := "M"; Euro := 10%float |}.

(** * Properties *)

(** ** Decoding *)

Lemma DecodeRuneInString_zero (s : string) :
  snd (utf8.DecodeRuneInString s) = 0%nat <-> s = "".
Proof.
  split.
  - intros Hz. destruct s as [|c rest]; [reflexivity|].
    pose proof (DecodeRuneInString_width (String c rest)) as Hw.
    assert (String c rest <> "") as Hne by discriminate.
    specialize (Hw Hne). lia.
  - intros ->. reflexivity.
Qed.

Lemma runes_nonempty (s : string) :
  s <> "" ->
  runes s = fst (utf8.DecodeRuneInString s)
            :: runes (str_from (snd (utf8.DecodeRuneInString s)) s).
Proof.
  destruct s as [|c rest]; [congruence|]. intros _. now rewrite runes_equation.
Qed.

(** ** The comparator *)

Section LexOrder.

Lemma lex_lt_irrefl (x : list Z) : lex_lt x x = false.
Proof.
  induction x as [|a x IH]; simpl; [reflexivity|].
  now rewrite Z.eqb_refl.
Qed.

Lemma lex_lt_asym (x y : list Z) : lex_lt x y = true -> lex_lt y x = false.
Proof.
  revert y; induction x as [|a x IH]; intros [|b y]; simpl; try congruence.
  destruct (Z.eqb_spec a b) as [->|Hab]; simpl.
  - rewrite Z.eqb_refl. simpl. apply IH.
  - intros Hlt. apply Z.ltb_lt in Hlt.
    destruct (Z.eqb_spec b a); simpl; [lia|]. apply Z.ltb_ge. lia.
Qed.

Lemma lex_lt_trans (x y z : list Z) :
  lex_lt x y = true -> lex_lt y z = true -> lex_lt x z = true.
Proof.
  revert y z; induction x as [|a x IH]; intros [|b y] [|c z]; simpl;
    try congruence.
  destruct (Z.eqb_spec a b) as [Hab|Hab], (Z.eqb_spec b c) as [Hbc|Hbc],
    (Z.eqb_spec a c) as [Hac|Hac]; simpl; try lia;
    rewrite ?Z.ltb_lt; try lia; try congruence.
  apply IH.
Qed.

Lemma lex_lt_total (x y : list Z) :
  lex_lt x y = true \/ lex_lt y x = true \/ x = y.
Proof.
  revert y; induction x as [|a x IH]; intros [|b y]; simpl; auto.
  destruct (Z.eqb_spec a b) as [->|Hab]; simpl.
  - rewrite Z.eqb_refl. simpl.
    destruct (IH y) as [?|[?| ->]]; auto.
  - destruct (Z.eqb_spec b a); [lia|]. simpl.
    destruct (Z.ltb_spec a b); auto.
    right; left. apply Z.ltb_lt. lia.
Qed.

(** A sequence is less than each one it is a proper prefix of. *)
Lemma lex_lt_prefix (x : list Z) (r : Z) (rest : list Z) :
  lex_lt x (x ++ r :: rest) = true.
Proof.
  induction x as [|a x IH]; [reflexivity|].
  cbn [app lex_lt]. now rewrite Z.eqb_refl.
Qed.

End LexOrder.

Section ComparatorFacts.
Context `{UnicodeTables}.

(** [lessLower] is the lexicographic order of the lowercased runes. *)
Lemma lessLower_folded (sa sb : string) :
  lessLower sa sb = lex_lt (folded sa) (folded sb).
Proof.
  functional induction (lessLower sa sb) as
      [sa sb rb nb Hb Hnb
      |sa sb rb nb Hb Hnb ra na Ha Hna
      |sa sb rb nb Hb Hnb ra na Ha Hna rb' ra' Hne
      |sa sb rb nb Hb Hnb ra na Ha Hna rb' ra' Hne IH].
  - apply Nat.eqb_eq in Hnb. subst nb.
    assert (sb = "") as -> by (apply DecodeRuneInString_zero; now rewrite Hb).
    reflexivity.
  - apply Nat.eqb_eq in Hna. subst na.
    assert (sa = "") as -> by (apply DecodeRuneInString_zero; now rewrite Ha).
    assert (sb <> "") as Hsb
      by (intros ->; simpl in Hb; injection Hb as _ <-; discriminate).
    unfold folded. rewrite (runes_nonempty sb Hsb). reflexivity.
  - assert (sb <> "") as Hsb
      by (intros ->; simpl in Hb; injection Hb as _ <-; discriminate).
    assert (sa <> "") as Hsa
      by (intros ->; simpl in Ha; injection Ha as _ <-; discriminate).
    unfold folded.
    rewrite (runes_nonempty sa Hsa), (runes_nonempty sb Hsb), Ha, Hb.
    cbn [map fst lex_lt]. now rewrite Hne.
  - assert (sb <> "") as Hsb
      by (intros ->; simpl in Hb; injection Hb as _ <-; discriminate).
    assert (sa <> "") as Hsa
      by (intros ->; simpl in Ha; injection Ha as _ <-; discriminate).
    rewrite IH. unfold folded.
    rewrite (runes_nonempty sa Hsa), (runes_nonempty sb Hsb), Ha, Hb.
    cbn [map fst snd lex_lt]. now rewrite Hne.
Qed.

End ComparatorFacts.

Section ComparatorOrder.
Context `{UnicodeTables}.

Lemma lessLower_irrefl (a : string) : lessLower a a = false.
Proof. rewrite lessLower_folded. apply lex_lt_irrefl. Qed.

Lemma lessLower_asym (a b : string) :
  lessLower a b = true -> lessLower b a = false.
Proof. rewrite !lessLower_folded. apply lex_lt_asym. Qed.

Lemma lessLower_trans (a b c : string) :
  lessLower a b = true -> lessLower b c = true -> lessLower a c = true.
Proof. rewrite !lessLower_folded. apply lex_lt_trans. Qed.

(** Two strings that [lessLower] does not separate have the same lowercased
    runes, and conversely. *)
Lemma lessLower_incomparable (a b : string) :
  lessLower a b = false /\ lessLower b a = false <-> folded a = folded b.
Proof.
  rewrite !lessLower_folded. split.
  - intros [Hab Hba].
    destruct (lex_lt_total (folded a) (folded b)) as [E|[E|E]]; congruence.
  - intros ->. split; apply lex_lt_irrefl.
Qed.

End ComparatorOrder.

(** C6, as the program has it.  [lessLower] is a strict order on strings
    that is total only up to letter case: it is irreflexive, antisymmetric
    and transitive, and any two strings are ordered one way or the other
    unless their lowercased rune sequences coincide.  A string whose
    lowercased rune sequence is a proper prefix of that of another is less
    than the other; so ["b"] is less than ["B2"], and ["A"] is less than
    ["b"]. *)
Theorem lessLower_strict_order_up_to_case `{UnicodeTables} :
  (forall a, lessLower a a = false) /\
  (forall a b, lessLower a b = true -> lessLower b a = true -> a = b) /\
  (forall a b c,
      lessLower a b = true -> lessLower b c = true -> lessLower a c = true) /\
  (forall a b,
      lessLower a b = true \/ lessLower b a = true \/ folded a = folded b) /\
  (forall a b r rest,
      folded b = folded a ++ r :: rest ->
      lessLower a b = true /\ lessLower b a = false) /\
  lessLower "A" "b" = true /\
  lessLower "b" "B2" = true.
Proof.
  split; [apply lessLower_irrefl|].
  split.
  { intros a b Hab Hba. apply lessLower_asym in Hab. congruence. }
  split; [apply lessLower_trans|].
  split.
  { intros a b. rewrite !lessLower_folded.
    destruct (lex_lt_total (folded a) (folded b)) as [E|[E|E]]; auto. }
  split.
  { intros a b r rest Hb.
    assert (lessLower a b = true) as Hlt
      by (rewrite lessLower_folded, Hb; apply lex_lt_prefix).
    split; [exact Hlt|]. now apply lessLower_asym. }
  split; rewrite lessLower_folded; reflexivity.
Qed.

(** C6 as stated fails: the order is not total on strings.  ["A"] and
    ["a"] are different strings and neither is less than the other,
    whatever the Unicode tables. *)
Lemma lessLower_not_total :
  "A" <> "a" /\
  (forall T : UnicodeTables,
      @lessLower T "A" "a" = false /\ @lessLower T "a" "A" = false).
Proof.
  split; [discriminate|].
  intros T. split; rewrite lessLower_folded; reflexivity.
Qed.

(** ** The quarter check *)

Section QuarterFacts.
Context `{UnicodeTables}.


Lemma DecodeRuneInString_ascii (c : ascii) (rest : string) :
  byte_val c < utf8.RuneSelf ->
  utf8.DecodeRuneInString (String c rest) = (byte_val c, 1%nat).
Proof.
  intros Hc. unfold utf8.DecodeRuneInString.
  change (String.length (String c rest) <? 1)%nat with false.
  change (byte_at (String c rest) 0) with (byte_val c). cbv zeta iota.
  assert (utf8.first (byte_val c) = utf8.as_) as ->.
  { unfold utf8.first. apply Z.ltb_lt in Hc.
    change utf8.RuneSelf with 0x80 in Hc. now rewrite Hc. }
  change (utf8.as_ >=? utf8.as_) with true. cbv iota.
  change (Z.shiftr (int32 (Z.shiftl utf8.as_ 31)) 31) with 0.
  change (Z.lnot 0) with (-1).
  now rewrite Z.land_m1_r, Z.land_0_r, Z.lor_0_r.
Qed.

(** On an ASCII string the runes are the bytes. *)
Lemma runes_ascii (s : string) :
  strings.isASCII s = true ->
  runes s = map byte_val (list_ascii_of_string s).
Proof.
  induction s as [|c rest IH]; intros Hs; [reflexivity|].
  cbn [strings.isASCII] in Hs.
  destruct (Z.geb_spec (byte_val c) utf8.RuneSelf) as [|Hc]; [discriminate|].
  rewrite runes_nonempty by discriminate.
  rewrite (DecodeRuneInString_ascii c rest Hc).
  cbn [fst snd str_from list_ascii_of_string map]. now rewrite IH.
Qed.







End QuarterFacts.



(** ** Loading *)

Section LoadingFacts.
Context `{UnicodeTables} `{Upstream}.

Lemma goroutines_loaded (order : list string) (st : loading) :
  loaded (fold_left goroutine order st)
  = loaded st ++ concat (map records order).
Proof.
  revert st; induction order as [|q order IH]; intros st; simpl.
  - now rewrite app_nil_r.
  - rewrite IH. unfold goroutine, records.
    destruct (loadData q) as [out [txs|err]]; simpl.
    + now rewrite <- app_assoc.
    + reflexivity.
Qed.

Lemma goroutines_errs (order : list string) (st : loading) :
  errs (fold_left goroutine order st) = errs st ++ omap failure order.
Proof.
  revert st; induction order as [|q order IH]; intros st; simpl.
  - now rewrite app_nil_r.
  - rewrite IH. unfold goroutine, failure.
    destruct (loadData q) as [out [txs|err]]; simpl.
    + reflexivity.
    + now rewrite <- app_assoc.
Qed.

Lemma records_of_failure (quarter : string) :
  fails quarter = true -> records quarter = [].
Proof.
  unfold fails, failure, records.
  destruct (snd (loadData quarter)); [discriminate|reflexivity].
Qed.

Lemma concat_records_successes (quarters : list string) :
  concat (map records quarters)
  = concat (map records (filter (fun q => fails q = false) quarters)).
Proof.
  induction quarters as [|q quarters IH]; simpl; [reflexivity|].
  rewrite filter_cons. destruct (fails q) eqn:E.
  - rewrite decide_False by congruence.
    now rewrite (records_of_failure q E).
  - rewrite decide_True by reflexivity. simpl. now rewrite IH.
Qed.

Lemma omap_failure_length (quarters : list string) :
  length (omap failure quarters)
  = length (filter (fun q => fails q = true) quarters).
Proof.
  induction quarters as [|q quarters IH]; simpl; [reflexivity|].
  rewrite filter_cons.
  destruct (failure q) eqn:E.
  - rewrite decide_True by (unfold fails; now rewrite E).
    simpl. f_equal. exact IH.
  - rewrite decide_False by (unfold fails; now rewrite E). exact IH.
Qed.

Lemma successes_and_failures (quarters : list string) :
  (length (filter (fun q => fails q = false) quarters)
   + length (filter (fun q => fails q = true) quarters)
   = length quarters)%nat.
Proof.
  induction quarters as [|x l IH]; simpl; [reflexivity|].
  rewrite !filter_cons. destruct (fails x) eqn:E.
  - rewrite decide_False by congruence. rewrite decide_True by reflexivity.
    simpl. lia.
  - rewrite decide_True by reflexivity. rewrite decide_False by congruence.
    simpl. lia.
Qed.

Lemma causes_Join (errs : list error) : causes (errors_Join errs) = errs.
Proof. now destruct errs. Qed.

(** The store after [loadMultipleData], and after [load]: the store
    before, then the batches in the order of the goroutines. *)
Lemma loadMultipleData_store (q : string) (qs : list string)
  (data : list transaction) :
  snd (fst (loadMultipleData (q :: qs) data))
  = data ++ concat (map records (goroutineOrder (q :: qs))).
Proof.
  unfold loadMultipleData. simpl. now rewrite goroutines_loaded.
Qed.

Lemma loadFeature_Run_store (quarters : list string)
  (data : list transaction) :
  snd (loadFeature_Run quarters data)
  = snd (fst (loadMultipleData quarters data)).
Proof.
  unfold loadFeature_Run.
  destruct (loadMultipleData quarters data) as [[out data'] [e|]]; reflexivity.
Qed.

Lemma loadFeature_Run_appends (quarters : list string)
  (data : list transaction) :
  snd (loadFeature_Run quarters data)
  = data ++ snd (loadFeature_Run quarters []).
Proof.
  rewrite !loadFeature_Run_store.
  destruct quarters as [|q qs].
  - simpl. now rewrite app_nil_r.
  - now rewrite !loadMultipleData_store.
Qed.

End LoadingFacts.

Section LoadingOutcome.
Context `{UnicodeTables} `{Upstream}.

(** What [loadData] returns for a quarter, read off the code of the
    quarter and the answer of the upstream. *)
Lemma failure_cause_of (quarter : string) : failure quarter = cause_of quarter.
Proof.
  unfold failure, cause_of, loadData.
  destruct (isValidQuarter quarter); cbn [negb snd]; [|reflexivity].
  now destruct (fetch quarter).
Qed.

Lemma fails_loads (quarter : string) : fails quarter = negb (loads quarter).
Proof.
  unfold fails, loads. rewrite failure_cause_of.
  now destruct (cause_of quarter).
Qed.

Lemma records_upstream_data (quarter : string) :
  loads quarter = true -> records quarter = upstream_data quarter.
Proof.
  unfold loads, cause_of, records, upstream_data, loadData.
  destruct (isValidQuarter quarter); cbn [negb snd]; [|discriminate].
  now destruct (fetch quarter).
Qed.

Lemma filter_fails_loads (b : bool) (quarters : list string) :
  filter (fun q => fails q = b) quarters
  = filter (fun q => loads q = negb b) quarters.
Proof.
  induction quarters as [|x l IH]; [reflexivity|].
  rewrite !filter_cons, IH, fails_loads.
  destruct (loads x), b; reflexivity.
Qed.

Lemma records_of_those_that_load (quarters : list string) :
  map records (filter (fun q => loads q = true) quarters)
  = map upstream_data (filter (fun q => loads q = true) quarters).
Proof.
  induction quarters as [|x l IH]; [reflexivity|].
  rewrite filter_cons. destruct (loads x) eqn:E.
  - rewrite decide_True by reflexivity. cbn [map].
    now rewrite IH, (records_upstream_data x E).
  - rewrite decide_False by congruence. exact IH.
Qed.

Lemma omap_failure_cause_of (quarters : list string) :
  omap failure quarters = omap cause_of quarters.
Proof.
  induction quarters as [|x l IH]; [reflexivity|].
  simpl. rewrite failure_cause_of.
  destruct (cause_of x); [f_equal|]; exact IH.
Qed.

End LoadingOutcome.

Lemma loadMultipleData_outcome
  `{UnicodeTables} `{Upstream} (q : string) (qs : list string)
  (data : list transaction) :
  let quarters := q :: qs in
  let result := loadMultipleData quarters data in
  let successes := filter (fun q => fails q = false) quarters in
  let failures := filter (fun q => fails q = true) quarters in
  (length successes = length quarters - length failures)%nat /\
  (exists batch,
      snd (fst result) = data ++ batch /\
      batch ≡ₚ concat (map records successes)) /\
  causes (snd result) ≡ₚ omap failure failures /\
  length (causes (snd result)) = length failures /\
  (length failures = 0%nat <-> snd result = None) /\
  (exists err,
      loadMultipleData [] data = ([], data, Some err)).
Proof.
  intros quarters result successes failures.
  assert (snd result = errors_Join (omap failure (goroutineOrder quarters)))
    as Herr.
  { subst result. unfold loadMultipleData. simpl.
    now rewrite goroutines_errs. }
  assert (forall l : list string, omap failure l
            = omap failure (filter (fun q => fails q = true) l)) as Homap.
  { induction l as [|x l IH]; simpl; [reflexivity|].
    rewrite filter_cons.
    destruct (failure x) eqn:E.
    - rewrite decide_True by (unfold fails; now rewrite E).
      simpl. rewrite E. f_equal. exact IH.
    - rewrite decide_False by (unfold fails; now rewrite E). exact IH. }
  assert (causes (snd result) ≡ₚ omap failure failures) as Hcauses.
  { rewrite Herr, causes_Join. subst failures.
    rewrite <- Homap. now rewrite goroutineOrder_perm. }
  split.
  { subst successes failures.
    pose proof (successes_and_failures quarters). lia. }
  split.
  { exists (concat (map records (goroutineOrder quarters))). split.
    - subst result quarters. apply loadMultipleData_store.
    - subst successes. rewrite <- concat_records_successes.
      now rewrite goroutineOrder_perm. }
  split; [exact Hcauses|].
  split.
  { rewrite Hcauses. subst failures.
    rewrite <- Homap. apply omap_failure_length. }
  split.
  { assert (length (causes (snd result)) = length failures) as Hlen.
    { rewrite Hcauses. subst failures.
      rewrite <- Homap. apply omap_failure_length. }
    rewrite <- Hlen. rewrite Herr, causes_Join.
    destruct (omap failure (goroutineOrder quarters)); simpl; split;
      (reflexivity || discriminate || lia). }
  eexists. reflexivity.
Qed.

(** C5.  Loading the quarters [q :: qs] leaves in the store the prior
    contents followed by exactly the data the upstream answered with for
    the quarters that loaded, those whose code is valid and whose request
    the upstream did not answer with an error; it returns the join of
    exactly one cause for each other quarter, the message of the program
    for a code that is not valid and the error of the upstream otherwise,
    and [nil] when every quarter loaded.  Loading no quarter returns the
    error of the program for that and leaves the store as it was. *)
Theorem loadMultipleData_partial_failure
  `{UnicodeTables} `{Upstream} (q : string) (qs : list string)
  (data : list transaction) :
  let quarters := q :: qs in
  let result := loadMultipleData quarters data in
  let successes := filter (fun q => loads q = true) quarters in
  let failures := filter (fun q => loads q = false) quarters in
  (length successes = length quarters - length failures)%nat /\
  (exists batch,
      snd (fst result) = data ++ batch /\
      batch ≡ₚ concat (map upstream_data successes)) /\
  causes (snd result) ≡ₚ omap cause_of failures /\
  length (causes (snd result)) = length failures /\
  (length failures = 0%nat <-> snd result = None) /\
  loadMultipleData [] data
  = ([], data,
     Some (errorString "at least one quarter to be loaded must be specified")).
Proof.
  intros quarters result successes failures.
  pose proof (loadMultipleData_outcome q qs data) as Hout.
  cbv zeta in Hout. fold quarters in Hout. fold result in Hout.
  rewrite (filter_fails_loads false), (filter_fails_loads true) in Hout.
  cbn [negb] in Hout. fold successes failures in Hout.
  rewrite omap_failure_cause_of in Hout.
  subst successes. rewrite records_of_those_that_load in Hout.
  destruct Hout as (H1 & H2 & H3 & H4 & H5 & _).
  repeat split; auto; apply H5.
Qed.

Lemma reloadFeature_Run_store
  `{UnicodeTables} `{Upstream} (quarters : list string)
  (data : list transaction) :
  snd (reloadFeature_Run quarters data)
  = map (fun _ => zero_transaction) data
    ++ snd (loadFeature_Run quarters []).
Proof.
  unfold reloadFeature_Run. rewrite loadFeature_Run_appends. reflexivity.
Qed.

(** C3, what the program does.  After [reload] the store holds one zero
    record for each record it held before, followed by the records of a
    fresh load of the same quarters; so it is at the prompt, after the
    turn that runs [reload]. *)
Theorem reload_keeps_zeroed_entries
  `{UnicodeTables} `{Upstream} `{GoRuntime} (quarters : list string)
  (data : list transaction) (st : repl) :
  snd (reloadFeature_Run quarters data)
  = map (fun _ => zero_transaction) data
    ++ snd (loadFeature_Run quarters []) /\
  store (snd (feature_Run ("reload" :: quarters) st))
  = map (fun _ => zero_transaction) (store st)
    ++ snd (loadFeature_Run quarters []).
Proof.
  split; [apply reloadFeature_Run_store|].
  unfold feature_Run.
  change (strings.ToLower (nth 0 ("reload" :: quarters) "")) with "reload".
  change (drop 1 ("reload" :: quarters)) with quarters.
  cbn [String.eqb Ascii.eqb Bool.eqb orb].
  rewrite <- reloadFeature_Run_store.
  destruct (reloadFeature_Run quarters (store st)). reflexivity.
Qed.

(** ** The reports *)

Section TopFacts.
Context `{UnicodeTables} `{GoRuntime}.

Lemma top_step_dom (mapper : transaction -> string) (bekanntgabe : Z)
  (data : list transaction) (m : gmap string float) :
  dom (fold_left (top_step mapper bekanntgabe) data m)
  = dom m ∪ list_to_set
      (map mapper
           (filter (fun t => Bekanntgabe t = bekanntgabe mod 2 ^ 8) data)).
Proof.
  revert m; induction data as [|t data IH]; intros m; simpl.
  - set_solver.
  - rewrite IH, filter_cons. unfold top_step.
    destruct (Z.eqb_spec (Bekanntgabe t) (bekanntgabe mod 2 ^ 8)) as [E|E];
      simpl.
    + rewrite decide_True by exact E. simpl.
      destruct (m !! mapper t) eqn:Hm; rewrite dom_insert_L; set_solver.
    + rewrite decide_False by exact E. reflexivity.
Qed.

Lemma top_groups_size (r : role) (p : paragraph) (data : list transaction) :
  size (fold_left (top_step (role_mapper r) (paragraph_code p)) data ∅)
  = group_count r p data.
Proof.
  transitivity
    (size (dom (fold_left (top_step (role_mapper r) (paragraph_code p))
                          data ∅)));
    [symmetry; apply size_dom|].
  rewrite top_step_dom, dom_empty_L, union_empty_l_L.
  assert (paragraph_code p mod 2 ^ 8 = paragraph_code p) as ->
    by (now destruct p).
  unfold group_count, group_keys.
  rewrite <- (size_list_to_set (C := gset string)) by apply NoDup_remove_dups.
  f_equal. apply set_eq. intros x.
  now rewrite !elem_of_list_to_set, elem_of_remove_dups.
Qed.

Lemma sorted_pairs_length (m : gmap string float) :
  length (sort_Slice by_value_desc (pairs_of m)) = size m.
Proof.
  rewrite sort_Slice_perm. unfold pairs_of.
  rewrite length_map, mapRange_perm. apply length_map_to_list.
Qed.

(** A valid invocation of [top] reaches the report: the count parses to a
    positive number, the role is [payers] or [recipients] in any letter
    case, and the paragraph parses to 2, 4 or 31. *)
Lemma top_valid_invocation (arg0 arg1 arg2 : string) (n : Z) (r : role)
  (p : paragraph) (data : list transaction) :
  strconv.ParseUint arg0 8 = inl n -> 0 < n ->
  strings.ToLower arg1 = role_token r ->
  strconv.ParseUint arg2 8 = inl (paragraph_code p) ->
  topFeature_Run [arg0; arg1; arg2] data
  = let m := fold_left (top_step (role_mapper r) (paragraph_code p)) data ∅ in
    let slice := sort_Slice by_value_desc (pairs_of m) in
    match slice with
    | [] => Panic [] (index_out_of_range 0 0)
    | first :: _ =>
      if Z.of_nat (size m) <? n then
        Panic [] (slice_bounds_out_of_range n (Z.of_nat (size m)))
      else
        Done (print_rows (maxStringLength_of slice)
                         (maxFloatWidth_of (value first))
                         (take (Z.to_nat n) slice))
    end.
Proof.
  intros Hn Hpos Hrole Hpar. unfold topFeature_Run.
  rewrite Hn, Hrole, Hpar.
  destruct (Z.leb_spec n 0); [lia|].
  destruct r, p; reflexivity.
Qed.

End TopFacts.

(** C1, what the program does.  A valid [top n <role> <paragraph>] whose
    [n] is larger than the number of distinct groups under the paragraph
    panics before it prints a row: on the index [0] of an empty ranking
    when there is no group, on the slice bound [n] otherwise. *)
Theorem top_more_than_groups_panics
  `{UnicodeTables} `{GoRuntime} (arg0 arg1 arg2 : string) (n : Z) (r : role)
  (p : paragraph) (data : list transaction) :
  strconv.ParseUint arg0 8 = inl n ->
  strings.ToLower arg1 = role_token r ->
  strconv.ParseUint arg2 8 = inl (paragraph_code p) ->
  Z.of_nat (group_count r p data) < n ->
  topFeature_Run [arg0; arg1; arg2] data
  = Panic []
      (if (group_count r p data =? 0)%nat then index_out_of_range 0 0
       else slice_bounds_out_of_range n (Z.of_nat (group_count r p data))).
Proof.
  intros Hn Hrole Hpar Hlt.
  rewrite (top_valid_invocation arg0 arg1 arg2 n r p data Hn) by (lia || auto).
  cbv zeta.
  pose proof (sorted_pairs_length
                (fold_left (top_step (role_mapper r) (paragraph_code p))
                           data ∅)) as Hlen.
  rewrite top_groups_size in *.
  destruct (sort_Slice by_value_desc _) as [|first slice]; simpl in Hlen.
  - rewrite <- Hlen. reflexivity.
  - rewrite <- Hlen. simpl.
    destruct (Z.ltb_spec (Z.of_nat (S (length slice))) n); [reflexivity|lia].
Qed.

(** C2, what the program does.  A valid [top] whose grouping result is
    empty panics on the index [0] of the empty ranking and prints
    nothing. *)
Theorem top_empty_grouping_panics
  `{UnicodeTables} `{GoRuntime} (arg0 arg1 arg2 : string) (n : Z) (r : role)
  (p : paragraph) (data : list transaction) :
  strconv.ParseUint arg0 8 = inl n -> 0 < n ->
  strings.ToLower arg1 = role_token r ->
  strconv.ParseUint arg2 8 = inl (paragraph_code p) ->
  group_count r p data = 0%nat ->
  topFeature_Run [arg0; arg1; arg2] data
  = Panic [] (index_out_of_range 0 0).
Proof.
  intros Hn Hpos Hrole Hpar Hzero.
  rewrite (top_valid_invocation arg0 arg1 arg2 n r p data Hn Hpos Hrole Hpar).
  cbv zeta.
  pose proof (sorted_pairs_length
                (fold_left (top_step (role_mapper r) (paragraph_code p))
                           data ∅)) as Hlen.
  rewrite top_groups_size, Hzero in Hlen.
  destruct (sort_Slice by_value_desc _); [reflexivity|discriminate].
Qed.

(** *** [search] *)

Lemma searchFeature_Run_nil_mapper
  `{UnicodeTables} `{GoRuntime} (por word : string) (words : list string)
  (t : transaction) (data : list transaction) :
  por <> "payers" -> por <> "recipients" ->
  searchFeature_Run (por :: word :: words) (t :: data)
  = Panic [Printf invalid_role_format [a_string por]] nil_func_call.
Proof.
  intros Hp Hr. unfold searchFeature_Run.
  change (length (por :: word :: words) <? 2)%nat with false.
  cbv iota. change (nth 0 (por :: word :: words) "") with por. cbv zeta.
  apply String.eqb_neq in Hp, Hr. rewrite Hp, Hr. reflexivity.
Qed.

(** C4, what the program does.  On a store that is not empty, a [search]
    whose role is neither [payers] nor [recipients] prints the validation
    message, goes on, and panics on the call of the nil [mapper]: the turn
    of the command loop ends the process. *)
Theorem search_invalid_role_panics
  `{UnicodeTables} `{Upstream} `{GoRuntime} (por word : string)
  (words : list string) (st : repl) :
  por <> "payers" -> por <> "recipients" -> store st <> [] ->
  searchFeature_Run (por :: word :: words) (store st)
  = Panic [Printf invalid_role_format [a_string por]] nil_func_call /\
  fst (feature_Run ("search" :: por :: word :: words) st)
  = Panic [Printf invalid_role_format [a_string por]] nil_func_call.
Proof.
  intros Hp Hr Hst. destruct (store st) as [|t data] eqn:E; [congruence|].
  split; [now apply searchFeature_Run_nil_mapper|].
  unfold feature_Run.
  change (strings.ToLower (nth 0 ("search" :: por :: word :: words) ""))
    with "search".
  change (drop 1 ("search" :: por :: word :: words)) with (por :: word :: words).
  cbn [String.eqb Ascii.eqb Bool.eqb orb fst]. rewrite E.
  now apply searchFeature_Run_nil_mapper.
Qed.

(** *** [details] *)

(** Two maps over the three paragraph codes are equal when they agree at
    2, at 4, at 31 and elsewhere. *)
Ltac sections_eq :=
  unfold sections; apply map_eq; intros i;
  destruct (decide (i = 2)), (decide (i = 4)), (decide (i = 31));
  simplify_map_eq; reflexivity.

Section DetailsFacts.
Context `{GoRuntime}.

Lemma sections_insert_2 (a2 a4 a31 x : gmap string float) :
  <[2 := x]> (sections a2 a4 a31) = sections x a4 a31.
Proof. sections_eq. Qed.

Lemma sections_insert_4 (a2 a4 a31 x : gmap string float) :
  <[4 := x]> (sections a2 a4 a31) = sections a2 x a31.
Proof. sections_eq. Qed.

Lemma sections_insert_31 (a2 a4 a31 x : gmap string float) :
  <[31 := x]> (sections a2 a4 a31) = sections a2 a4 x.
Proof. sections_eq. Qed.

Lemma sections_lookup (a2 a4 a31 : gmap string float) (code : Z) :
  sections a2 a4 a31 !! code
  = if code =? 2 then Some a2
    else if code =? 4 then Some a4
    else if code =? 31 then Some a31
    else None.
Proof.
  unfold sections.
  destruct (Z.eqb_spec code 2) as [->|]; [now simplify_map_eq|].
  destruct (Z.eqb_spec code 4) as [->|]; [now simplify_map_eq|].
  destruct (Z.eqb_spec code 31) as [->|]; now simplify_map_eq.
Qed.

Lemma bucket_cons_same (r : role) (code : Z) (a : gmap string float)
  (t : transaction) (ts : list transaction) :
  Bekanntgabe t = code ->
  bucket r code a (t :: ts)
  = bucket r code
      (credit (counterparty r t) (float64_of_float32 (Euro t)) a) ts.
Proof.
  intros E. unfold bucket. rewrite filter_cons, decide_True by exact E.
  reflexivity.
Qed.

Lemma bucket_cons_other (r : role) (code : Z) (a : gmap string float)
  (t : transaction) (ts : list transaction) :
  Bekanntgabe t <> code -> bucket r code a (t :: ts) = bucket r code a ts.
Proof.
  intros E. unfold bucket. rewrite filter_cons, decide_False by exact E.
  reflexivity.
Qed.

Lemma details_loop_sections (r : role) (organization : string)
  (data : list transaction) (a2 a4 a31 : gmap string float) :
  details_loop (role_mapper r) (counterparty r) organization data
               (sections a2 a4 a31)
  = let ts := matching r organization data in
    if forallb known_paragraph ts
    then Some (sections (bucket r 2 a2 ts) (bucket r 4 a4 ts)
                        (bucket r 31 a31 ts))
    else None.
Proof.
  revert a2 a4 a31; induction data as [|t data IH]; intros a2 a4 a31.
  - reflexivity.
  - cbv zeta. unfold matching. rewrite filter_cons. simpl details_loop.
    destruct (String.eqb_spec (role_mapper r t) organization) as [E|E].
    + rewrite decide_True by exact E.
      fold (matching r organization data).
      rewrite sections_lookup. simpl forallb. unfold known_paragraph at 1.
      unfold credit in *.
      destruct (Z.eqb_spec (Bekanntgabe t) 2) as [E2|E2].
      { rewrite E2 at 1. rewrite sections_insert_2, IH. cbv zeta. simpl orb.
        cbv iota.
        rewrite (bucket_cons_same r 2) by exact E2.
        rewrite (bucket_cons_other r 4) by lia.
        rewrite (bucket_cons_other r 31) by lia. reflexivity. }
      destruct (Z.eqb_spec (Bekanntgabe t) 4) as [E4|E4].
      { rewrite E4 at 1. rewrite sections_insert_4, IH. cbv zeta. simpl orb.
        cbv iota.
        rewrite (bucket_cons_other r 2) by lia.
        rewrite (bucket_cons_same r 4) by exact E4.
        rewrite (bucket_cons_other r 31) by lia. reflexivity. }
      destruct (Z.eqb_spec (Bekanntgabe t) 31) as [E31|E31].
      { rewrite E31 at 1. rewrite sections_insert_31, IH. cbv zeta. simpl orb.
        cbv iota.
        rewrite (bucket_cons_other r 2) by lia.
        rewrite (bucket_cons_other r 4) by lia.
        rewrite (bucket_cons_same r 31) by exact E31. reflexivity. }
      reflexivity.
    + rewrite decide_False by exact E.
      fold (matching r organization data). apply IH.
Qed.

Lemma details_valid_invocation (r : role) (words : list string)
  (data : list transaction) :
  detailsFeature_Run (role_token r :: words) data
  = details_report r (strings.Join words " ") data.
Proof.
  unfold detailsFeature_Run, details_report.
  change (length (role_token r :: words) <? 1)%nat with false. cbv iota.
  change (nth 0 (role_token r :: words) "") with (role_token r).
  change (drop 1 (role_token r :: words)) with words. cbv zeta.
  assert ((if String.eqb (role_token r) "payers"
           then Some (getRechtstraeger, getMedieninhaber)
           else if String.eqb (role_token r) "recipients"
           then Some (getMedieninhaber, getRechtstraeger)
           else None) = Some (role_mapper r, counterparty r)) as ->
    by (now destruct r).
  fold (sections ∅ ∅ ∅). rewrite details_loop_sections. cbv zeta.
  destruct (forallb known_paragraph _); [|reflexivity].
  rewrite !sections_lookup. reflexivity.
Qed.

End DetailsFacts.

(** C9, as the program has it.  [details] rejects only an invocation with
    no argument at all; with the role token alone it runs with the empty
    organization name.  On a valid role it joins the remaining arguments
    with single spaces and reports on exactly the transactions whose payer
    (recipient) equals that name. *)
Theorem details_needs_role_only_and_matches_exactly
  `{GoRuntime} (r : role) (words : list string) (data : list transaction) :
  detailsFeature_Run [] data
  = Done [Println "At least one parameter needs to be provided"] /\
  detailsFeature_Run [role_token r] data = details_report r "" data /\
  detailsFeature_Run (role_token r :: words) data
  = details_report r (strings.Join words " ") data.
Proof.
  split; [reflexivity|]. split; apply details_valid_invocation.
Qed.

(** *** The count argument of [top] *)

Lemma is_digit_range (c : ascii) :
  fmt.is_digit c = true -> 0 <= byte_val c - byte_val "0" <= 9.
Proof.
  unfold fmt.is_digit. rewrite andb_true_iff, !Z.leb_le.
  change (byte_val "0") with 48. change (byte_val "9") with 57. lia.
Qed.

Lemma decimal_value_ge (s : string) (acc : Z) :
  0 <= acc -> all_digits s = true -> acc <= decimal_value acc s.
Proof.
  revert acc; induction s as [|c rest IH]; intros acc Hacc Hs;
    cbn [decimal_value all_digits] in *.
  - lia.
  - apply andb_true_iff in Hs as [Hc Hrest].
    pose proof (is_digit_range c Hc) as Hd.
    specialize (IH (acc * 10 + (byte_val c - byte_val "0")) ltac:(lia) Hrest).
    lia.
Qed.

(** On digits [ParseUint] computes the number they denote and reports a
    range error as soon as it exceeds [maxVal]. *)
Lemma ParseUint_loop_digits (s0 : string) (maxVal : Z) (s : string) (n : Z) :
  0 <= n <= maxVal -> maxVal < 2 ^ 60 -> all_digits s = true ->
  strconv.ParseUint_loop s0 maxVal n s
  = if decimal_value n s <=? maxVal then inl (decimal_value n s)
    else inr (NumError "ParseUint" s0 ErrRange).
Proof.
  revert n; induction s as [|c rest IH]; intros n Hn Hmax Hs;
    cbn [decimal_value all_digits strconv.ParseUint_loop] in *.
  - destruct (Z.leb_spec n maxVal); [reflexivity|lia].
  - apply andb_true_iff in Hs as [Hc Hrest].
    pose proof (is_digit_range c Hc) as Hd.
    unfold fmt.is_digit in Hc. rewrite Hc.
    set (d := byte_val c - byte_val "0") in *.
    assert (strconv.maxUint64 / 10 + 1 = 1844674407370955162) as -> by reflexivity.
    assert (2 ^ 60 = 1152921504606846976) as E60 by reflexivity.
    destruct (Z.geb_spec n 1844674407370955162) as [|_]; [lia|].
    assert (2 ^ 64 = 18446744073709551616) as E64 by reflexivity.
    rewrite (Z.mod_small (n * 10)) by lia.
    rewrite (Z.mod_small (n * 10 + d)) by lia.
    destruct (Z.ltb_spec (n * 10 + d) (n * 10)) as [|_]; [lia|].
    destruct (Z.ltb_spec maxVal (n * 10 + d)) as [Hover|Hfits]; simpl.
    + pose proof (decimal_value_ge rest (n * 10 + d) ltac:(lia) Hrest).
      destruct (Z.leb_spec (decimal_value (n * 10 + d) rest) maxVal);
        [lia|reflexivity].
    + apply IH; auto; lia.
Qed.

Lemma ParseUint_digits (s : string) :
  s <> "" -> all_digits s = true ->
  strconv.ParseUint s 8
  = if decimal_value 0 s <=? 255 then inl (decimal_value 0 s)
    else inr (NumError "ParseUint" s ErrRange).
Proof.
  intros Hne Hs. unfold strconv.ParseUint.
  apply String.eqb_neq in Hne. rewrite Hne.
  change (Z.shiftl 1 8 - 1) with 255.
  apply ParseUint_loop_digits; auto; [lia|reflexivity].
Qed.

Lemma ParseUint_loop_not_digits (s0 : string) (maxVal : Z) (s : string)
  (n : Z) :
  all_digits s = false ->
  exists err,
    strconv.ParseUint_loop s0 maxVal n s = inr (NumError "ParseUint" s0 err).
Proof.
  revert n; induction s as [|c rest IH]; intros n Hs;
    cbn [all_digits strconv.ParseUint_loop] in *; [discriminate|].
  unfold fmt.is_digit in Hs.
  destruct ((byte_val "0" <=? byte_val c) && (byte_val c <=? byte_val "9"));
    [|eauto].
  cbv zeta.
  destruct (_ >=? _); [eauto|]. destruct (_ || _); [eauto|]. apply IH, Hs.
Qed.

Lemma ParseUint_not_digits (s : string) :
  all_digits s = false ->
  exists err, strconv.ParseUint s 8 = inr (NumError "ParseUint" s err).
Proof.
  intros Hs. unfold strconv.ParseUint.
  destruct (String.eqb s ""); [eauto|].
  now apply ParseUint_loop_not_digits.
Qed.

Lemma denotes_digits (s : string) :
  s <> "" -> all_digits s = true -> denotes s = Some (decimal_value 0 s).
Proof.
  intros Hne Hs. destruct s as [|c rest]; [congruence|].
  assert (fmt.is_digit c = true) as Hc
    by (cbn [all_digits] in Hs; now apply andb_true_iff in Hs).
  unfold denotes.
  destruct c as [[] [] [] [] [] [] [] []];
    first [ vm_compute in Hc; discriminate Hc
          | cbv zeta; cbn [String.eqb Ascii.eqb Bool.eqb negb andb];
            rewrite Hs; reflexivity ].
Qed.

(** [ParseUint] accepts a string only when it is a run of digits that
    denotes a number up to 255. *)
Lemma ParseUint_accepts (s : string) (n : Z) :
  strconv.ParseUint s 8 = inl n -> denotes s = Some n /\ 0 <= n <= 255.
Proof.
  intros Hp.
  destruct (all_digits s) eqn:Hs.
  - destruct (String.eqb_spec s "") as [->|Hne]; [discriminate|].
    rewrite (ParseUint_digits s Hne Hs) in Hp.
    destruct (Z.leb_spec (decimal_value 0 s) 255) as [Hle|]; [|discriminate].
    injection Hp as <-.
    pose proof (decimal_value_ge s 0 ltac:(lia) Hs).
    split; [now apply denotes_digits|lia].
  - destruct (ParseUint_not_digits s Hs) as [err Herr]. congruence.
Qed.

(** C10.  [top] takes its count for valid only when [ParseUint] reads it
    into eight bits: a count that denotes an integer above 255, or a
    negative one, ends the command with the validation message for
    parameter 1 and no row. *)
Theorem top_count_above_255_or_negative_rejected
  `{UnicodeTables} `{GoRuntime} (s : string) (z : Z) (role par : string)
  (data : list transaction) :
  denotes s = Some z -> 255 < z \/ z < 0 ->
  exists err,
    topFeature_Run [s; role; par] data
    = Done [Printf ("Value %s for parameter 1 is invalid: %v" +:+ nl)
                   [a_string s; a_error (NumError "ParseUint" s err)]].
Proof.
  intros Hden Hz.
  assert (exists err, strconv.ParseUint s 8 = inr (NumError "ParseUint" s err))
    as [err Herr].
  { destruct (strconv.ParseUint s 8) as [n|e] eqn:Hp.
    - apply ParseUint_accepts in Hp as [Hd Hn]. rewrite Hd in Hden.
      injection Hden as <-. lia.
    - destruct (all_digits s) eqn:Hs.
      + destruct (String.eqb_spec s "") as [->|Hne]; [discriminate|].
        rewrite (ParseUint_digits s Hne Hs) in Hp.
        destruct (_ <=? _); [discriminate|]. injection Hp as <-. eauto.
      + destruct (ParseUint_not_digits s Hs) as [err Herr].
        rewrite Herr in Hp. injection Hp as <-. eauto. }
  exists err. unfold topFeature_Run. now rewrite Herr.
Qed.

(** *** The worked example of [top] *)

Section TopExample.
Context `{UnicodeTables} `{GoRuntime}.
Variables (ma mb mc qa qb qc : string).

Lemma example_groups :
  fold_left (top_step getRechtstraeger 2)
            (example_store ma mb mc qa qb qc) ∅
  = <["B" := 30%float]> (<["A" := 10%float]> ∅).
Proof. reflexivity. Qed.

Lemma example_pairs :
  pairs_of (<["B" := 30%float]> (<["A" := 10%float]> ∅)) ≡ₚ [pair_A; pair_B].
Proof.
  unfold pairs_of. rewrite mapRange_perm. reflexivity.
Qed.

Lemma example_strict_weak :
  strict_weak_on by_value_desc
    (pairs_of (<["B" := 30%float]> (<["A" := 10%float]> ∅))).
Proof.
  assert (forall x,
            x ∈ pairs_of (<["B" := 30%float]> (<["A" := 10%float]> ∅)) ->
            x = pair_A \/ x = pair_B) as Hin.
  { intros x Hx. rewrite example_pairs in Hx.
    apply elem_of_cons in Hx as [->|Hx]; [now left|].
    apply elem_of_cons in Hx as [->|Hx]; [now right|].
    now apply elem_of_nil in Hx. }
  repeat split.
  - intros x Hx. destruct (Hin x Hx) as [->| ->]; reflexivity.
  - intros x y z Hx Hy Hz.
    destruct (Hin x Hx) as [->| ->], (Hin y Hy) as [->| ->],
      (Hin z Hz) as [->| ->]; vm_compute; congruence.
  - intros x y z Hx Hy Hz.
    destruct (Hin x Hx) as [->| ->], (Hin y Hy) as [->| ->],
      (Hin z Hz) as [->| ->]; vm_compute; congruence.
Qed.

(** Whatever the order of the map iteration, the ranking is [B], [A]. *)
Lemma example_ranking :
  sort_Slice by_value_desc
    (pairs_of (<["B" := 30%float]> (<["A" := 10%float]> ∅)))
  = [pair_B; pair_A].
Proof.
  pose proof (sort_Slice_sorted _ by_value_desc _ example_strict_weak) as Hs.
  assert ([pair_A; pair_B]
          ≡ₚ sort_Slice by_value_desc
               (pairs_of (<["B" := 30%float]> (<["A" := 10%float]> ∅))))
    as Hp.
  { symmetry. etransitivity; [apply sort_Slice_perm|apply example_pairs]. }
  apply Permutation_length_2_inv in Hp as [Hp|Hp]; [|exact Hp].
  rewrite Hp in Hs.
  specialize (Hs 0%nat 1%nat pair_A pair_B ltac:(lia) eq_refl eq_refl).
  vm_compute in Hs. discriminate.
Qed.

End TopExample.

(** C8.  On the store [{(A, 10, §2), (B, 30, §2), (A, 5, §4)}],
    [top 1 payers 2] prints the one row [1. B - 30.00€] and
    [top 2 payers 2] prints [B] with 30 and then [A] with 10: the record
    of [A] under §4 is left out of the sums.  The logarithm of 30 is
    taken to have integer part 1. *)
Theorem top_payers_example
  `{UnicodeTables} `{GoRuntime} (ma mb mc qa qb qc : string) :
  int_of_float64 (math_Log10 30) = 1 ->
  let data := example_store ma mb mc qa qb qc in
  let row1 := Printf (row_format 1 2) [a_int 1; a_string "B"; a_float 30] in
  let row2 := Printf (row_format 1 2) [a_int 2; a_string "A"; a_float 10] in
  topFeature_Run ["1"; "payers"; "2"] data = Done [row1] /\
  topFeature_Run ["2"; "payers"; "2"] data = Done [row1; row2] /\
  fmt.texts_of [row1; row2]
  = Some [tab +:+ "  1. B - 30.00€" +:+ nl; tab +:+ "  2. A - 10.00€" +:+ nl].
Proof.
  intros Hlog data row1 row2.
  assert (forall sn n, strconv.ParseUint sn 8 = inl n -> 0 < n -> n <= 2 ->
            topFeature_Run [sn; "payers"; "2"] data
            = Done (print_rows 1 2 (take (Z.to_nat n) [pair_B; pair_A])))
    as Hrun.
  { intros sn n Hn Hpos Hle.
    rewrite (top_valid_invocation sn "payers" "2" n payers par2 data Hn Hpos
               eq_refl eq_refl).
    subst data. cbn [role_mapper paragraph_code].
    rewrite example_groups. cbv zeta. rewrite example_ranking.
    change (size (<["B" := 30%float]> (<["A" := 10%float]> ∅
                    : gmap string float))) with 2%nat.
    destruct (Z.ltb_spec (Z.of_nat 2) n); [lia|].
    unfold maxFloatWidth_of. cbn [value pair_B]. rewrite Hlog.
    reflexivity. }
  split; [|split].
  - apply (Hrun "1" 1); [reflexivity|lia|lia].
  - apply (Hrun "2" 2); [reflexivity|lia|lia].
  - reflexivity.
Qed.

(** *** Empty reports *)

Lemma printAll_empty `{GoRuntime} : printAll ∅ = [].
Proof. reflexivity. Qed.

Lemma bucket_nil (r : role) (code : Z) (a : gmap string float) :
  bucket r code a [] = a.
Proof. reflexivity. Qed.

(** X8.  [details] on an organization with no transaction prints the three
    section labels and no row: [printAll] returns at once on an empty
    map. *)
Lemma details_no_match_prints_labels
  `{GoRuntime} (r : role) (words : list string) (data : list transaction) :
  matching r (strings.Join words " ") data = [] ->
  detailsFeature_Run (role_token r :: words) data
  = Done [Println (tab +:+ "Payments §2:");
          Println (tab +:+ "Payments §4:");
          Println (tab +:+ "Payments §31:")].
Proof.
  intros Hnone. rewrite details_valid_invocation.
  unfold details_report. rewrite Hnone. reflexivity.
Qed.

(** X1.  [details] panics when a transaction of the organization carries a
    paragraph other than 2, 4 and 31: [m] gives the nil map for it, and the
    assignment to an entry of a nil map panics. *)
Theorem details_unknown_paragraph_panics
  `{GoRuntime} (r : role) (words : list string) (data : list transaction) :
  forallb known_paragraph (matching r (strings.Join words " ") data) = false ->
  detailsFeature_Run (role_token r :: words) data
  = Panic [] nil_map_assignment.
Proof.
  intros Hunknown. rewrite details_valid_invocation.
  unfold details_report. now rewrite Hunknown.
Qed.

(** ** The program on concrete inputs *)

(** C1 at a failing input: [top 2 payers 2] on a store with one group. *)
Lemma top_more_than_groups_witness :
  strconv.ParseUint "2" 8 = inl 2 /\
  @strings.ToLower latin1Tables "payers" = role_token payers /\
  strconv.ParseUint "2" 8 = inl (paragraph_code par2) /\
  Z.of_nat (group_count payers par2 [record_A]) < 2 /\
  @topFeature_Run latin1Tables demoRuntime ["2"; "payers"; "2"] [record_A]
  = Panic [] (slice_bounds_out_of_range 2 1).
Proof.
  split; [reflexivity|]. split; [reflexivity|]. split; [reflexivity|].
  split; [vm_compute; reflexivity|].
  apply (@top_more_than_groups_panics latin1Tables demoRuntime
           "2" "payers" "2" 2 payers par2 [record_A]);
    [reflexivity | reflexivity | reflexivity | vm_compute; reflexivity].
Defined.

(** C2 at a failing input: [top 1 payers 4] on a store with no record
    under §4. *)
Lemma top_empty_grouping_witness :
  strconv.ParseUint "1" 8 = inl 1 /\
  @strings.ToLower latin1Tables "payers" = role_token payers /\
  strconv.ParseUint "4" 8 = inl (paragraph_code par4) /\
  group_count payers par4 [record_A] = 0%nat /\
  @topFeature_Run latin1Tables demoRuntime ["1"; "payers"; "4"] [record_A]
  = Panic [] (index_out_of_range 0 0).
Proof.
  split; [reflexivity|]. split; [reflexivity|]. split; [reflexivity|].
  split; [reflexivity|].
  apply (@top_empty_grouping_panics latin1Tables demoRuntime
           "1" "payers" "4" 1 payers par4 [record_A]);
    [reflexivity | lia | reflexivity | reflexivity | reflexivity].
Defined.

(** C4 at a failing input: [search foo bar] on a store of one record. *)
Lemma search_invalid_role_witness :
  "foo" <> "payers" /\ "foo" <> "recipients" /\
  [record_A] <> [] /\
  fst (@feature_Run latin1Tables demoUpstream demoRuntime
         ["search"; "foo"; "bar"] {| store := [record_A]; running := true |})
  = Panic [Printf invalid_role_format [a_string "foo"]] nil_func_call.
Proof.
  split; [discriminate|]. split; [discriminate|]. split; [discriminate|].
  apply (@search_invalid_role_panics latin1Tables demoUpstream demoRuntime
           "foo" "bar" [] {| store := [record_A]; running := true |});
    discriminate.
Defined.

(** C8 on the runtime above. *)
Lemma top_payers_example_witness :
  @int_of_float64 demoRuntime (@math_Log10 demoRuntime 30) = 1 /\
  @topFeature_Run latin1Tables demoRuntime ["1"; "payers"; "2"]
    (example_store "M" "N" "O" "20231" "20231" "20232")
  = Done [Printf (row_format 1 2) [a_int 1; a_string "B"; a_float 30]].
Proof.
  split; [reflexivity|].
  apply (@top_payers_example latin1Tables demoRuntime
           "M" "N" "O" "20231" "20231" "20232").
  reflexivity.
Defined.

(** C10 at [top 300 payers 2] and [top -1 payers 2]. *)
Lemma top_count_rejected_witness :
  denotes "300" = Some 300 /\ denotes "-1" = Some (-1) /\
  (exists err,
      @topFeature_Run latin1Tables demoRuntime ["300"; "payers"; "2"] [record_A]
      = Done [Printf ("Value %s for parameter 1 is invalid: %v" +:+ nl)
                     [a_string "300";
                      a_error (NumError "ParseUint" "300" err)]]) /\
  (exists err,
      @topFeature_Run latin1Tables demoRuntime ["-1"; "payers"; "2"] [record_A]
      = Done [Printf ("Value %s for parameter 1 is invalid: %v" +:+ nl)
                     [a_string "-1";
                      a_error (NumError "ParseUint" "-1" err)]]).
Proof.
  split; [reflexivity|]. split; [reflexivity|]. split.
  - apply (@top_count_above_255_or_negative_rejected latin1Tables demoRuntime
             "300" 300 "payers" "2" [record_A]); [reflexivity|lia].
  - apply (@top_count_above_255_or_negative_rejected latin1Tables demoRuntime
             "-1" (-1) "payers" "2" [record_A]); [reflexivity|lia].
Defined.

(** C3 at a failing input: [reload 20232] on a store of one record leaves
    a zero record before the record of the quarter. *)
Example reload_residue :
  snd (@reloadFeature_Run latin1Tables demoUpstream ["20232"] [record_A])
  = [ zero_transaction;
      {| Rechtstraeger := "B"; Quartal := "20232"; Bekanntgabe := 4;
         Medieninhaber := "N"; Euro := 30%float |} ] /\
  snd (@loadFeature_Run latin1Tables demoUpstream ["20232"] [])
  = [ {| Rechtstraeger := "B"; Quartal := "20232"; Bekanntgabe := 4;
         Medieninhaber := "N"; Euro := 30%float |} ].
Proof. split; reflexivity. Qed.

(** C9 as stated fails: [details payers], the role token alone, is not
    rejected; it prints the three section labels. *)
Lemma details_role_alone_not_rejected :
  @detailsFeature_Run demoRuntime ["payers"] [record_A]
  = Done [Println (tab +:+ "Payments §2:");
          Println (tab +:+ "Payments §4:");
          Println (tab +:+ "Payments §31:")].
Proof. reflexivity. Qed.

(** Matching is by equality: neither another case nor a part of the name
    selects the record of ["A"], the name itself does. *)
Example details_matching_is_exact :
  matching payers "a" [record_A] = [] /\
  matching payers "A"
    [ {| Rechtstraeger := "AB"; Quartal := "20231"; Bekanntgabe := 2;
         Medieninhaber := "M"; Euro := 10%float |} ] = [] /\
  matching payers "A" [record_A] = [record_A] /\
  fmt.texts_of
    match @detailsFeature_Run demoRuntime ["payers"; "A"] [record_A] with
    | Done out => out
    | Panic out _ => out
    end
  = Some [tab +:+ "Payments §2:" +:+ nl;
          tab +:+ "  1. M - 10.00€" +:+ nl;
          tab +:+ "Payments §4:" +:+ nl;
          tab +:+ "Payments §31:" +:+ nl].
Proof. repeat split; reflexivity. Qed.

(** Two of three quarters load; the third is no quarter code. *)
Example load_partial_failure :
  @loadMultipleData latin1Tables demoUpstream ["20231"; "2023x"; "20232"] []
  = ([Printf ("Loading data for quarter %s" +:+ nl) [a_string "20232"];
      Printf ("Loading data for quarter %s" +:+ nl) [a_string "20231"]],
     [ {| Rechtstraeger := "B"; Quartal := "20232"; Bekanntgabe := 4;
          Medieninhaber := "N"; Euro := 30%float |};
       {| Rechtstraeger := "A"; Quartal := "20231"; Bekanntgabe := 2;
          Medieninhaber := "M"; Euro := 10%float |} ],
     Some (joinError [errorString "2023x is not a valid quarter"])).
Proof. reflexivity. Qed.

(** The quarter check on ASCII input, and on a string of five bytes that
    holds three digits when the tables know the Arabic-Indic digits. *)
Example isValidQuarter_examples :
  @isValidQuarter latin1Tables "20231" = true /\
  @isValidQuarter latin1Tables "2023" = false /\
  @isValidQuarter latin1Tables "2023x" = false /\
  @isValidQuarter
     {| To_LowerCase := fun r => r;
        Digit_excludingLatin := fun r => (0x660 <=? r) && (r <=? 0x669) |}
     "٠٠1" = true.
Proof. repeat split; reflexivity. Qed.

(** [details payers A] on a store where [A] has a record under a
    paragraph 7. *)
Lemma details_unknown_paragraph_witness :
  forallb known_paragraph
    (matching payers (strings.Join ["A"] " ")
       [ {| Rechtstraeger := "A"; Quartal := "20231"; Bekanntgabe := 7;
            Medieninhaber := "M"; Euro := 10%float |} ]) = false /\
  @detailsFeature_Run demoRuntime ["payers"; "A"]
    [ {| Rechtstraeger := "A"; Quartal := "20231"; Bekanntgabe := 7;
         Medieninhaber := "M"; Euro := 10%float |} ]
  = Panic [] nil_map_assignment.
Proof.
  split; [reflexivity|].
  apply (@details_unknown_paragraph_panics demoRuntime payers ["A"]).
  reflexivity.
Defined.

(** ** The listings *)

Lemma lex_lt_neg_trans (x y z : list Z) :
  lex_lt x y = false -> lex_lt y z = false -> lex_lt x z = false.
Proof.
  revert y z; induction x as [|a x IH]; intros [|b y] [|c z]; simpl;
    try congruence.
  destruct (Z.eqb_spec a b) as [Hab|Hab], (Z.eqb_spec b c) as [Hbc|Hbc],
    (Z.eqb_spec a c) as [Hac|Hac]; simpl; try lia;
    rewrite ?Z.ltb_ge; try lia; try congruence.
  apply IH.
Qed.

(** [lessLower] is a comparator as [sort.Slice] wants it, on any slice. *)
Lemma lessLower_strict_weak `{UnicodeTables} (l : list string) :
  strict_weak_on lessLower l.
Proof.
  repeat split.
  - intros x _. apply lessLower_irrefl.
  - intros x y z _ _ _. apply lessLower_trans.
  - intros x y z _ _ _. rewrite !lessLower_folded. apply lex_lt_neg_trans.
Qed.

Section ListingFacts.
Context `{UnicodeTables} `{GoRuntime}.

(** The keys of a set, ranged over and sorted: each key once, in an order
    in which no key is less than one before it. *)
Lemma sorted_keys (set : gmap string unit) :
  let keys := sort_Slice lessLower (map fst (mapRange set)) in
  NoDup keys /\
  (forall s, s ∈ keys <-> s ∈ dom set) /\
  sorted_by lessLower keys.
Proof.
  intros keys.
  assert (keys ≡ₚ map fst (map_to_list set)) as Hp.
  { subst keys. rewrite sort_Slice_perm. now rewrite mapRange_perm. }
  split; [|split].
  - rewrite Hp. apply NoDup_fst_map_to_list.
  - intros s. rewrite Hp, elem_of_dom. split.
    + intros Hs. apply list_elem_of_fmap in Hs as ([k v] & -> & Hkv).
      apply elem_of_map_to_list in Hkv. now exists v.
    + intros [v Hv]. apply list_elem_of_fmap. exists (s, v).
      split; [reflexivity|]. now apply elem_of_map_to_list.
  - apply sort_Slice_sorted, lessLower_strict_weak.
Qed.

Lemma unique_set_dom (mapper : transaction -> string)
  (transactions : list transaction) (set : gmap string unit) :
  dom (fold_left
         (fun set t =>
            let s := mapper t in
            match set !! s with
            | Some _ => set
            | None => <[s := tt]> set
            end)
         transactions set)
  = dom set ∪ list_to_set (map mapper transactions).
Proof.
  revert set; induction transactions as [|t ts IH]; intros set; simpl.
  - set_solver.
  - rewrite IH. destruct (set !! mapper t) eqn:E.
    + apply (elem_of_dom_2 (D := gset string)) in E. set_solver.
    + rewrite dom_insert_L. set_solver.
Qed.

End ListingFacts.

Lemma printUniqueResults_keys
  `{UnicodeTables} `{GoRuntime} (mapper : transaction -> string)
  (transactions : list transaction) :
  exists keys,
    printUniqueResults mapper transactions
    = map (fun s => Printf (tab +:+ "%s" +:+ nl) [a_string s]) keys /\
    NoDup keys /\
    (forall s, s ∈ keys <-> exists t, t ∈ transactions /\ mapper t = s) /\
    sorted_by lessLower keys /\
    (transactions = [] -> keys = []).
Proof.
  unfold printUniqueResults.
  set (set := fold_left _ transactions ∅).
  destruct (sorted_keys set) as (Hnd & Hin & Hs).
  set (keys := sort_Slice lessLower (map fst (mapRange set))) in *.
  assert (forall s,
             s ∈ keys <-> exists t, t ∈ transactions /\ mapper t = s) as Hkeys.
  { intros s. rewrite Hin. subst set. rewrite unique_set_dom.
    rewrite dom_empty_L, union_empty_l_L, elem_of_list_to_set.
    rewrite list_elem_of_fmap. split; intros (t & ? & ?); eauto. }
  exists keys. split; [reflexivity|]. split; [exact Hnd|].
  split; [exact Hkeys|]. split; [exact Hs|].
  intros Hnil. destruct keys as [|s keys']; [reflexivity|].
  destruct (proj1 (Hkeys s)) as (t & Ht & _); [left|].
  rewrite Hnil in Ht. now apply elem_of_nil in Ht.
Qed.

(** X2.  A listing ([payers], [recipients], [quarters]) prints one line for
    each distinct value the store holds in the listed field, each value
    once, and no line holds a value that [lessLower] puts before the value
    of an earlier line; what differs only in letter case may come in any
    order.  On an empty store it prints nothing. *)
Theorem printUniqueResults_distinct_sorted
  `{UnicodeTables} `{GoRuntime} (mapper : transaction -> string)
  (transactions : list transaction) :
  exists keys,
    printUniqueResults mapper transactions
    = map (fun s => Printf (tab +:+ "%s" +:+ nl) [a_string s]) keys /\
    NoDup keys /\
    (forall s, s ∈ keys <-> exists t, t ∈ transactions /\ mapper t = s) /\
    sorted_by lessLower keys /\
    (transactions = [] -> keys = []).
Proof. apply printUniqueResults_keys. Qed.

(** ** [search] on a valid role, and on an empty store *)

(** [+:+] on a string that begins with a known byte. *)
Ltac simpl_append := unfold String.append; fold String.append.

Ltac simpl_append_in H := unfold String.append in H; fold String.append in H.

Lemma HasPrefix_spec (s prefix : string) :
  strings.HasPrefix s prefix = true <-> exists post, s = prefix +:+ post.
Proof.
  revert s; induction prefix as [|p prefix IH]; intros s.
  - split; [eauto|]. intros _. now destruct s.
  - destruct s as [|c s]; simpl;
      [split; [discriminate|intros [post ?]; discriminate]|].
    destruct (Ascii.eqb_spec p c) as [->|Hpc].
    + rewrite IH. split; intros [post Hpost]; exists post;
        simpl_append; simpl_append_in Hpost; congruence.
    + split; [discriminate|]. intros [post Hpost].
      simpl_append_in Hpost. congruence.
Qed.

(** [Contains(s, substr)] holds exactly when [substr] stands somewhere in
    [s]. *)
Lemma Contains_spec (s substr : string) :
  strings.Contains s substr = true
  <-> exists pre post, s = pre +:+ substr +:+ post.
Proof.
  induction s as [|c s IH]; cbn [strings.Contains].
  - destruct (strings.HasPrefix "" substr) eqn:E.
    + apply HasPrefix_spec in E as [post E]. split; [|reflexivity].
      intros _. now exists "", post.
    + split; [discriminate|]. intros (pre & post & E').
      destruct pre; [|discriminate]. simpl_append_in E'.
      assert (strings.HasPrefix "" substr = true) as E''
        by (apply HasPrefix_spec; eauto).
      congruence.
  - destruct (strings.HasPrefix (String c s) substr) eqn:E.
    + apply HasPrefix_spec in E as [post E]. split; [|reflexivity].
      intros _. now exists "", post.
    + rewrite IH. split.
      * intros (pre & post & ->). now exists (String c pre), post.
      * intros (pre & post & E'). destruct pre as [|c' pre].
        -- simpl_append_in E'.
           assert (strings.HasPrefix (String c s) substr = true) as E''
             by (apply HasPrefix_spec; eauto).
           congruence.
        -- simpl_append_in E'. injection E' as _ ->. eauto.
Qed.

Section SearchFacts.
Context `{UnicodeTables} `{GoRuntime}.

Lemma search_loop_dom (f : transaction -> string) (searchTerm : string)
  (data : list transaction) (set : gmap string unit) :
  exists set',
    search_loop (Some f) searchTerm data set = Some set' /\
    dom set'
    = dom set ∪ list_to_set
        (filter
           (fun s => strings.Contains (strings.ToLower s) searchTerm = true)
           (map f data)).
Proof.
  revert set; induction data as [|t data IH]; intros set; simpl.
  - exists set. split; [reflexivity|]. set_solver.
  - rewrite filter_cons.
    destruct (strings.Contains (strings.ToLower (f t)) searchTerm) eqn:E.
    + rewrite decide_True by reflexivity.
      destruct (IH (<[f t := tt]> set)) as (set' & Hrun & Hdom).
      exists set'. split; [exact Hrun|].
      rewrite Hdom, dom_insert_L. set_solver.
    + rewrite decide_False by congruence. apply IH.
Qed.

Lemma sorted_keys_empty :
  sort_Slice lessLower (map fst (mapRange (∅ : gmap string unit))) = [].
Proof.
  apply Permutation_nil_r. rewrite sort_Slice_perm, mapRange_perm.
  now rewrite map_to_list_empty.
Qed.

End SearchFacts.

(** X3.  [search <role> <words>] with a valid role prints a numbered list,
    from 1 on, of the distinct names of that role whose lowercased form
    holds the lowercased, space-joined words somewhere; each name once, no
    name before one that [lessLower] puts before it. *)
Theorem search_lists_matches
  `{UnicodeTables} `{GoRuntime} (r : role) (word : string)
  (words : list string) (data : list transaction) :
  let searchTerm := strings.ToLower (strings.Join (word :: words) " ") in
  exists names,
    searchFeature_Run (role_token r :: word :: words) data
    = Done (imap (fun idx str =>
                    Printf (tab +:+ "%d. %s" +:+ nl)
                           [a_int (Z.of_nat idx + 1); a_string str])
                 names) /\
    NoDup names /\
    (forall s,
        s ∈ names <->
        exists t pre post,
          t ∈ data /\ role_mapper r t = s /\
          strings.ToLower s = pre +:+ searchTerm +:+ post) /\
    sorted_by lessLower names.
Proof.
  intros searchTerm.
  destruct (search_loop_dom (role_mapper r) searchTerm data ∅)
    as (set & Hrun & Hdom).
  destruct (sorted_keys set) as (Hnd & Hin & Hs).
  exists (sort_Slice lessLower (map fst (mapRange set))).
  split; [|split; [exact Hnd|split; [|exact Hs]]].
  - unfold searchFeature_Run.
    change (length (role_token r :: word :: words) <? 2)%nat with false.
    cbv iota. change (nth 0 (role_token r :: word :: words) "")
      with (role_token r).
    change (drop 1 (role_token r :: word :: words)) with (word :: words).
    fold searchTerm.
    destruct r; cbn [role_token String.eqb Ascii.eqb Bool.eqb];
      cbn [role_mapper] in Hrun; cbv zeta; rewrite Hrun; reflexivity.
  - intros s. rewrite Hin, Hdom, dom_empty_L, union_empty_l_L.
    rewrite elem_of_list_to_set, list_elem_of_filter, list_elem_of_fmap.
    rewrite Contains_spec. split.
    + intros ((pre & post & E) & t & -> & Ht). now exists t, pre, post.
    + intros (t & pre & post & Ht & <- & E). split; eauto.
Qed.

(** X4.  On an empty store [search] returns whatever its arguments: a role that
    is not valid leaves [mapper] nil, but no record is there to call it
    on, so the validation message is all that is printed. *)
Theorem search_empty_store_returns
  `{UnicodeTables} `{GoRuntime} (arguments : list string) :
  searchFeature_Run arguments []
  = Done (if (length arguments <? 2)%nat
          then [Println "At least two parameters need to be provided"]
          else if String.eqb (nth 0 arguments "") "payers"
                  || String.eqb (nth 0 arguments "") "recipients"
          then []
          else [Printf invalid_role_format [a_string (nth 0 arguments "")]]).
Proof.
  unfold searchFeature_Run.
  destruct (length arguments <? 2)%nat; [reflexivity|].
  cbv zeta.
  destruct (String.eqb (nth 0 arguments "") "payers");
    [cbn [search_loop orb]; now rewrite sorted_keys_empty|].
  destruct (String.eqb (nth 0 arguments "") "recipients");
    cbn [search_loop orb]; rewrite sorted_keys_empty; reflexivity.
Qed.

(** ** The order of the rows *)

Lemma SFltb_key (f1 f2 : spec_float) :
  f1 <> S754_nan -> f2 <> S754_nan ->
  (SFltb f1 f2 = true <-> lex3 (SF_key f1) (SF_key f2)).
Proof.
  intros H1 H2. unfold SFltb, SFcompare, lex3.
  destruct f1 as [[]|[]| |[] m1 e1], f2 as [[]|[]| |[] m2 e2];
    try congruence; cbn [SF_key];
    try (split; [discriminate|lia]); try (split; [lia|reflexivity]).
  - change (Pos.compare_cont Eq m1 m2) with (m1 ?= m2)%positive.
    destruct (Z.compare_spec e1 e2), (Pos.compare_spec m1 m2); cbn [CompOpp];
      (split; [try discriminate; lia|try reflexivity; lia]).
  - change (Pos.compare_cont Eq m1 m2) with (m1 ?= m2)%positive.
    destruct (Z.compare_spec e1 e2), (Pos.compare_spec m1 m2);
      (split; [try discriminate; lia|try reflexivity; lia]).
Qed.

Lemma is_nan_false (f : float) :
  PrimFloat.is_nan f = false -> Prim2SF f <> S754_nan.
Proof.
  unfold PrimFloat.is_nan. rewrite FloatAxioms.eqb_spec. intros Hf E.
  rewrite E in Hf. discriminate.
Qed.

(** The comparator of the reports is one as [sort.Slice] wants it on any
    slice that holds no NaN. *)
Lemma by_value_desc_strict_weak (l : list stringFloatPair) :
  (forall pair, pair ∈ l -> PrimFloat.is_nan (value pair) = false) ->
  strict_weak_on by_value_desc l.
Proof.
  intros Hnan.
  assert (forall a b, a ∈ l -> b ∈ l ->
            (by_value_desc a b = true
             <-> lex3 (SF_key (Prim2SF (value b))) (SF_key (Prim2SF (value a)))))
    as Hkey.
  { intros a b Ha Hb. unfold by_value_desc. rewrite FloatAxioms.ltb_spec.
    apply SFltb_key; apply is_nan_false; auto. }
  assert (forall a b, a ∈ l -> b ∈ l ->
            (by_value_desc a b = false
             <-> ~ lex3 (SF_key (Prim2SF (value b))) (SF_key (Prim2SF (value a)))))
    as Hkey'.
  { intros a b Ha Hb. rewrite <- (Hkey a b Ha Hb).
    destruct (by_value_desc a b); split; congruence. }
  repeat split.
  - intros x Hx. rewrite (Hkey' x x Hx Hx). unfold lex3.
    destruct (SF_key _) as [[? ?] ?]. lia.
  - intros x y z Hx Hy Hz.
    rewrite (Hkey x y), (Hkey y z), (Hkey x z) by assumption. unfold lex3.
    destruct (SF_key (Prim2SF (value x))) as [[? ?] ?],
      (SF_key (Prim2SF (value y))) as [[? ?] ?],
      (SF_key (Prim2SF (value z))) as [[? ?] ?]. lia.
  - intros x y z Hx Hy Hz.
    rewrite (Hkey' x y), (Hkey' y z), (Hkey' x z) by assumption. unfold lex3.
    destruct (SF_key (Prim2SF (value x))) as [[? ?] ?],
      (SF_key (Prim2SF (value y))) as [[? ?] ?],
      (SF_key (Prim2SF (value z))) as [[? ?] ?]. lia.
Qed.

Section RankingFacts.
Context `{UnicodeTables} `{GoRuntime}.

(** The ranking of a map of sums: one pair for each entry. *)
Lemma ranking_perm (m : gmap string float) :
  sort_Slice by_value_desc (pairs_of m)
  ≡ₚ map (fun kv => {| str := fst kv; value := snd kv |}) (map_to_list m).
Proof.
  rewrite sort_Slice_perm. unfold pairs_of. now rewrite mapRange_perm.
Qed.

Lemma ranking_elem_of (m : gmap string float) (pair : stringFloatPair) :
  pair ∈ sort_Slice by_value_desc (pairs_of m)
  <-> m !! str pair = Some (value pair).
Proof.
  rewrite ranking_perm, list_elem_of_fmap. split.
  - intros ([k v] & -> & Hkv). now apply elem_of_map_to_list in Hkv.
  - intros Hm. exists (str pair, value pair). split; [now destruct pair|].
    now apply elem_of_map_to_list.
Qed.

Lemma ranking_names_NoDup (m : gmap string float) :
  NoDup (map str (sort_Slice by_value_desc (pairs_of m))).
Proof.
  rewrite ranking_perm, map_map. cbn [str].
  apply NoDup_fst_map_to_list.
Qed.

Lemma ranking_sorted (m : gmap string float) :
  (forall key v, m !! key = Some v -> PrimFloat.is_nan v = false) ->
  sorted_by by_value_desc (sort_Slice by_value_desc (pairs_of m)).
Proof.
  intros Hnan. apply sort_Slice_sorted, by_value_desc_strict_weak.
  intros pair Hpair. apply (Hnan (str pair)).
  apply ranking_elem_of. now rewrite sort_Slice_perm.
Qed.

(** The loop that finds the longest name ends on a length that none of the
    names exceeds. *)
Lemma maxStringLength_of_ge (slice : list stringFloatPair)
  (pair : stringFloatPair) :
  pair ∈ slice ->
  Z.of_nat (String.length (str pair)) <= maxStringLength_of slice.
Proof.
  unfold maxStringLength_of. generalize 0.
  induction slice as [|p slice IH]; intros acc Hin;
    [now apply elem_of_nil in Hin|].
  assert (forall l a b, a <= b ->
            a <= fold_left
                   (fun maxStringLength pair0 =>
                      let length := Z.of_nat (String.length (str pair0)) in
                      if length >? maxStringLength then length
                      else maxStringLength) l b) as Hmono.
  { induction l as [|q l IHl]; intros a b Hab; simpl; [exact Hab|].
    apply IHl. destruct (Z.gtb_spec (Z.of_nat (String.length (str q))) b); lia. }
  apply elem_of_cons in Hin as [->|Hin]; simpl.
  - apply Hmono.
    destruct (Z.gtb_spec (Z.of_nat (String.length (str p))) acc); lia.
  - now apply IH.
Qed.

Lemma length_print_rows (w1 w2 : Z) (slice : list stringFloatPair) :
  length (print_rows w1 w2 slice) = length slice.
Proof. unfold print_rows. apply length_imap. Qed.

(** The grouping loop of [top] holds for each group the sum of its
    amounts, added in the order of the store. *)
Lemma top_step_lookup (mapper : transaction -> string) (bekanntgabe : Z)
  (data : list transaction) (m : gmap string float) (key : string) :
  fold_left (top_step mapper bekanntgabe) data m !! key
  = let amounts :=
      map (fun t => float64_of_float32 (Euro t))
          (filter (fun t => Bekanntgabe t = bekanntgabe mod 2 ^ 8
                            /\ mapper t = key) data) in
    match m !! key with
    | Some acc => Some (fold_left PrimFloat.add amounts acc)
    | None =>
      match amounts with
      | [] => None
      | x :: xs => Some (fold_left PrimFloat.add xs x)
      end
    end.
Proof.
  revert m; induction data as [|t data IH]; intros m; cbv zeta.
  - simpl. now destruct (m !! key).
  - cbn [fold_left]. rewrite IH. cbv zeta. rewrite filter_cons.
    unfold top_step.
    destruct (Z.eqb_spec (Bekanntgabe t) (bekanntgabe mod 2 ^ 8)) as [E|E];
      cbn [negb].
    + destruct (decide (mapper t = key)) as [Ek|Ek].
      * rewrite decide_True by tauto. subst key.
        destruct (m !! mapper t) eqn:Em; rewrite lookup_insert_eq; reflexivity.
      * rewrite decide_False by tauto.
        destruct (m !! mapper t) eqn:Em; rewrite lookup_insert_ne by exact Ek;
          reflexivity.
    + rewrite decide_False by tauto. reflexivity.
Qed.

Lemma top_groups_lookup (r : role) (p : paragraph) (data : list transaction)
  (key : string) :
  fold_left (top_step (role_mapper r) (paragraph_code p)) data ∅ !! key
  = group_sum r (paragraph_code p) key data.
Proof.
  rewrite top_step_lookup, lookup_empty. cbv zeta.
  assert (paragraph_code p mod 2 ^ 8 = paragraph_code p) as ->
    by (now destruct p).
  reflexivity.
Qed.

End RankingFacts.

(** X7.  [printAll] prints one row for each entry of the map and cannot fail:
    the rows are the entries in some order, the name column is at least as
    wide as the longest name, and no row holds a greater amount than a row
    before it when no amount is a NaN. *)
Theorem printAll_one_row_per_entry `{GoRuntime} (m : gmap string float) :
  exists ranking w1 w2,
    printAll m = print_rows w1 w2 ranking /\
    ranking
    ≡ₚ map (fun kv => {| str := fst kv; value := snd kv |}) (map_to_list m) /\
    length (printAll m) = size m /\
    (forall pair,
        pair ∈ ranking -> Z.of_nat (String.length (str pair)) <= w1) /\
    ((forall key v, m !! key = Some v -> PrimFloat.is_nan v = false) ->
     sorted_by by_value_desc ranking).
Proof.
  pose proof (ranking_perm m) as Hp.
  pose proof (ranking_sorted m) as Hs.
  assert (length (sort_Slice by_value_desc (pairs_of m)) = size m) as Hlen
    by (rewrite Hp, length_map; apply length_map_to_list).
  unfold printAll.
  destruct (sort_Slice by_value_desc (pairs_of m)) as [|first slice] eqn:E.
  - exists [], 0, 0. simpl in Hlen. rewrite <- Hlen. simpl.
    repeat split; auto.
    intros pair Hpair. now apply elem_of_nil in Hpair.
  - exists (first :: slice), (maxStringLength_of (first :: slice)),
      (maxFloatWidth_of (value first)).
    rewrite <- Hlen. cbn [length Nat.eqb].
    split; [reflexivity|]. split; [exact Hp|].
    split; [now rewrite length_print_rows|].
    split; [apply maxStringLength_of_ge|exact Hs].
Qed.

(** X11.  A valid [top n <role> <paragraph>] whose [n] is at most the number of
    groups prints [n] rows: the first [n] of a ranking that holds each
    group of the role under the paragraph once, with the sum of its
    amounts, and in which no group stands after one with a smaller sum
    when no sum is a NaN. *)
Theorem top_prints_the_first_n
  `{UnicodeTables} `{GoRuntime} (arg0 arg1 arg2 : string) (n : Z) (r : role)
  (p : paragraph) (data : list transaction) :
  strconv.ParseUint arg0 8 = inl n -> 0 < n ->
  strings.ToLower arg1 = role_token r ->
  strconv.ParseUint arg2 8 = inl (paragraph_code p) ->
  n <= Z.of_nat (group_count r p data) ->
  exists ranking w1 w2,
    topFeature_Run [arg0; arg1; arg2] data
    = Done (print_rows w1 w2 (take (Z.to_nat n) ranking)) /\
    length (print_rows w1 w2 (take (Z.to_nat n) ranking)) = Z.to_nat n /\
    NoDup (map str ranking) /\
    (forall pair,
        pair ∈ ranking
        <-> group_sum r (paragraph_code p) (str pair) data
            = Some (value pair)) /\
    ((forall key v,
         group_sum r (paragraph_code p) key data = Some v ->
         PrimFloat.is_nan v = false) ->
     sorted_by by_value_desc ranking).
Proof.
  intros Hn Hpos Hrole Hpar Hle.
  rewrite (top_valid_invocation arg0 arg1 arg2 n r p data Hn Hpos Hrole Hpar).
  cbv zeta.
  set (m := fold_left (top_step (role_mapper r) (paragraph_code p)) data ∅).
  pose proof (sorted_pairs_length m) as Hlen.
  pose proof (ranking_names_NoDup m) as Hnd.
  pose proof (ranking_elem_of m) as Hin.
  pose proof (ranking_sorted m) as Hs.
  assert (size m = group_count r p data) as Hsize by apply top_groups_size.
  assert (forall key, m !! key = group_sum r (paragraph_code p) key data)
    as Hsum by apply top_groups_lookup.
  destruct (sort_Slice by_value_desc (pairs_of m)) as [|first slice] eqn:E.
  { simpl in Hlen. lia. }
  exists (first :: slice), (maxStringLength_of (first :: slice)),
    (maxFloatWidth_of (value first)).
  destruct (Z.ltb_spec (Z.of_nat (size m)) n) as [|_]; [lia|].
  split; [reflexivity|].
  split; [rewrite length_print_rows, length_take; lia|].
  split; [exact Hnd|].
  split.
  - intros pair. now rewrite Hin, Hsum.
  - intros Hnan. apply Hs. intros key v. rewrite Hsum. apply Hnan.
Qed.

(** ** Validation in [top] and [details] *)

(** X10.  [top] and [details] end on a role that is not valid with the message
    alone, whatever the store holds.  [top] takes the role in any letter
    case: it turns down what is neither [payers] nor [recipients] once
    lower-cased.  [details] takes it as it is written: it turns down
    everything but the two words themselves, [Payers] too. *)
Theorem invalid_role_only_prints
  `{UnicodeTables} `{GoRuntime} (arg0 por arg2 : string) (n : Z)
  (words : list string) (data : list transaction) :
  (strconv.ParseUint arg0 8 = inl n ->
   strings.ToLower por <> "payers" -> strings.ToLower por <> "recipients" ->
   topFeature_Run [arg0; por; arg2] data
   = Done [Printf invalid_role_format [a_string por]]) /\
  (por <> "payers" -> por <> "recipients" ->
   detailsFeature_Run (por :: words) data
   = Done [Printf invalid_role_format [a_string por]]).
Proof.
  split.
  - intros Hn Hp Hr. unfold topFeature_Run. rewrite Hn.
    apply String.eqb_neq in Hp, Hr. now rewrite Hp, Hr.
  - intros Hp' Hr'. unfold detailsFeature_Run.
    change (length (por :: words) <? 1)%nat with false. cbv iota.
    change (nth 0 (por :: words) "") with por.
    apply String.eqb_neq in Hp', Hr'. now rewrite Hp', Hr'.
Qed.

(** X14.  [top] reads its role through [strings.ToLower]: written in any letter
    case, a valid role gives the run of the role in lower case. *)
Theorem top_role_in_any_case
  `{UnicodeTables} `{GoRuntime} (arg0 arg1 arg2 : string) (r : role)
  (data : list transaction) :
  strings.ToLower arg1 = role_token r ->
  topFeature_Run [arg0; arg1; arg2] data
  = topFeature_Run [arg0; role_token r; arg2] data.
Proof.
  intros Hrole. unfold topFeature_Run. rewrite Hrole.
  assert (strings.ToLower (role_token r) = role_token r) as ->
    by (now destruct r).
  destruct (strconv.ParseUint arg0 8); [|reflexivity].
  destruct r; reflexivity.
Qed.

(** X13.  With a count and a paragraph that parse and a valid role, [top] ends
    with a message and no row on the count 0, and on a paragraph other
    than 2, 4 and 31; the count is looked at first. *)
Theorem top_rejects_zero_and_unknown_paragraph
  `{UnicodeTables} `{GoRuntime} (arg0 arg1 arg2 : string) (n b : Z)
  (r : role) (data : list transaction) :
  strconv.ParseUint arg0 8 = inl n ->
  strings.ToLower arg1 = role_token r ->
  strconv.ParseUint arg2 8 = inl b ->
  (n = 0 ->
   topFeature_Run [arg0; arg1; arg2] data
   = Done [Printf ("%d is not a valid input for parameter amount" +:+ nl)
                  [a_int 0]]) /\
  (0 < n -> b <> 2 -> b <> 4 -> b <> 31 ->
   topFeature_Run [arg0; arg1; arg2] data
   = Done [Printf ("%d is not a valid input for parameter bekanntgabe" +:+ nl)
                  [a_int b]]).
Proof.
  intros Hn Hrole Hb. unfold topFeature_Run. rewrite Hn, Hrole, Hb. split.
  - intros ->. destruct r; reflexivity.
  - intros Hpos H2 H4 H31.
    destruct (Z.leb_spec n 0); [lia|].
    apply Z.eqb_neq in H2, H4, H31. rewrite H2, H4, H31.
    destruct r; reflexivity.
Qed.

(** X15.  The count and the paragraph of [top] are read by
    [strconv.ParseUint(s, 10, 8)], which takes exactly the strings that are
    one or more of the digits 0 to 9 and denote at most 255: a sign, a
    space or an empty string is an error. *)
Theorem ParseUint_8_accepts_iff (s : string) (n : Z) :
  strconv.ParseUint s 8 = inl n
  <-> s <> "" /\ all_digits s = true /\ decimal_value 0 s = n /\ n <= 255.
Proof.
  split.
  - intros Hp. destruct (all_digits s) eqn:Hs.
    + destruct (String.eqb_spec s "") as [->|Hne]; [discriminate|].
      rewrite (ParseUint_digits s Hne Hs) in Hp.
      destruct (Z.leb_spec (decimal_value 0 s) 255); [|discriminate].
      injection Hp as <-. auto.
    + destruct (ParseUint_not_digits s Hs) as [err Herr]. congruence.
  - intros (Hne & Hs & Hv & Hle). rewrite (ParseUint_digits s Hne Hs), Hv.
    destruct (Z.leb_spec n 255); [reflexivity|lia].
Qed.

Lemma top_within_the_groups_returns
  `{UnicodeTables} `{GoRuntime} (arg0 arg1 arg2 : string) (n : Z) (r : role)
  (p : paragraph) (data : list transaction) :
  strconv.ParseUint arg0 8 = inl n -> 0 < n ->
  strings.ToLower arg1 = role_token r ->
  strconv.ParseUint arg2 8 = inl (paragraph_code p) ->
  n <= Z.of_nat (group_count r p data) ->
  exists out, topFeature_Run [arg0; arg1; arg2] data = Done out.
Proof.
  intros Hn Hpos Hrole Hpar Hle.
  rewrite (top_valid_invocation arg0 arg1 arg2 n r p data Hn Hpos Hrole Hpar).
  cbv zeta.
  pose proof (sorted_pairs_length
                (fold_left (top_step (role_mapper r) (paragraph_code p))
                           data ∅)) as Hlen.
  rewrite top_groups_size in *.
  destruct (sort_Slice by_value_desc _) as [|first slice];
    [simpl in Hlen; lia|].
  destruct (Z.ltb_spec (Z.of_nat (group_count r p data)) n); [lia|eauto].
Qed.

(** X12.  [top] panics in one case only: on a valid invocation whose count is
    above the number of groups. *)
Theorem top_panics_only_above_the_groups
  `{UnicodeTables} `{GoRuntime} (arguments : list string)
  (data : list transaction) (out : list event) (f : panic) :
  topFeature_Run arguments data = Panic out f ->
  exists arg0 arg1 arg2 n r p,
    arguments = [arg0; arg1; arg2] /\
    strconv.ParseUint arg0 8 = inl n /\
    strings.ToLower arg1 = role_token r /\
    strconv.ParseUint arg2 8 = inl (paragraph_code p) /\
    Z.of_nat (group_count r p data) < n.
Proof.
  intros Hrun.
  destruct arguments as [|arg0 [|arg1 [|arg2 [|? ?]]]]; try discriminate.
  unfold topFeature_Run in Hrun.
  destruct (strconv.ParseUint arg0 8) as [n|] eqn:Hn; [|discriminate].
  assert (exists r, strings.ToLower arg1 = role_token r) as [r Hrole].
  { destruct (String.eqb_spec (strings.ToLower arg1) "payers") as [E|_];
      [now exists payers|].
    destruct (String.eqb_spec (strings.ToLower arg1) "recipients") as [E|_];
      [now exists recipients|discriminate]. }
  destruct (strconv.ParseUint arg2 8) as [b|] eqn:Hb;
    [|rewrite Hrole in Hrun; destruct r; discriminate].
  destruct (Z.leb_spec n 0) as [|Hpos];
    [rewrite Hrole in Hrun; destruct r; discriminate|].
  assert (exists p, b = paragraph_code p) as [p ->].
  { destruct (Z.eqb_spec b 2) as [->|]; [now exists par2|].
    destruct (Z.eqb_spec b 4) as [->|]; [now exists par4|].
    destruct (Z.eqb_spec b 31) as [->|]; [now exists par31|].
    rewrite Hrole in Hrun. destruct r; discriminate. }
  exists arg0, arg1, arg2, n, r, p. repeat split; auto.
  destruct (Z.ltb_spec (Z.of_nat (group_count r p data)) n) as [|Hle];
    [assumption|].
  destruct (top_within_the_groups_returns arg0 arg1 arg2 n r p data
              Hn Hpos Hrole Hb Hle) as (out' & Hdone).
  unfold topFeature_Run in Hdone. rewrite Hn, Hb in Hdone.
  destruct (Z.leb_spec n 0); [lia|]. congruence.
Qed.

(** ** Progress lines and requests of a load *)

Section ProgressFacts.
Context `{UnicodeTables} `{Upstream}.

Lemma goroutines_printed (order : list string) (st : loading) :
  printed (fold_left goroutine order st)
  = printed st
    ++ map (fun q => Printf ("Loading data for quarter %s" +:+ nl) [a_string q])
           (filter (fun q => isValidQuarter q = true) order).
Proof.
  revert st; induction order as [|q order IH]; intros st; simpl.
  - now rewrite app_nil_r.
  - rewrite IH, filter_cons. unfold goroutine, loadData.
    destruct (isValidQuarter q) eqn:E; cbn [negb].
    + rewrite decide_True by reflexivity.
      destruct (fetch q); cbn [printed map]; now rewrite <- app_assoc.
    + rewrite decide_False by congruence. cbn [printed].
      now rewrite app_nil_r.
Qed.

End ProgressFacts.

(** X16.  A load prints one progress line for each quarter code that is valid,
    and none for the others; a code that is not valid fails with the cause
    [<code> is not a valid quarter]. *)
Theorem load_progress_lines
  `{UnicodeTables} `{Upstream} (q : string) (qs : list string)
  (data : list transaction) :
  fst (fst (loadMultipleData (q :: qs) data))
  ≡ₚ map (fun q => Printf ("Loading data for quarter %s" +:+ nl) [a_string q])
         (filter (fun q => isValidQuarter q = true) (q :: qs)) /\
  (forall q',
      isValidQuarter q' = false ->
      failure q' = Some (errorString (q' +:+ " is not a valid quarter"))).
Proof.
  split.
  - unfold loadMultipleData. cbn [length Nat.eqb fst].
    rewrite goroutines_printed. cbn [printed app].
    now rewrite goroutineOrder_perm.
  - intros q' Hq'. unfold failure, loadData. now rewrite Hq'.
Qed.

(** X17.  No request goes out for a quarter code that is not valid: against
    two upstreams that answer alike for the valid codes a load prints the
    same progress lines, whatever the order they come in, and when the
    goroutines append in the same order it leaves the same store and
    returns the same error. *)
Theorem invalid_quarters_are_not_requested
  `{UnicodeTables} (U1 U2 : Upstream) (quarters : list string)
  (data : list transaction) :
  (forall q, isValidQuarter q = true -> @fetch U1 q = @fetch U2 q) ->
  fst (fst (@loadMultipleData _ U1 quarters data))
  ≡ₚ fst (fst (@loadMultipleData _ U2 quarters data)) /\
  (@goroutineOrder U1 quarters = @goroutineOrder U2 quarters ->
   snd (fst (@loadMultipleData _ U1 quarters data))
   = snd (fst (@loadMultipleData _ U2 quarters data)) /\
   snd (@loadMultipleData _ U1 quarters data)
   = snd (@loadMultipleData _ U2 quarters data)).
Proof.
  intros Hfetch. unfold loadMultipleData.
  destruct (length quarters =? 0)%nat; [split; [reflexivity|auto]|].
  cbn [fst snd]. split.
  - rewrite !goroutines_printed. cbn [printed app].
    now rewrite !goroutineOrder_perm.
  - intros Horder. rewrite Horder.
    assert (forall order st,
               fold_left (@goroutine _ U1) order st
               = fold_left (@goroutine _ U2) order st) as ->; [|auto].
    induction order as [|q order IH]; intros st; [reflexivity|].
    cbn [fold_left]. rewrite IH. f_equal.
    unfold goroutine, loadData.
    destruct (isValidQuarter q) eqn:E; cbn [negb]; [|reflexivity].
    now rewrite (Hfetch q E).
Qed.

(** ** The store under the commands *)

Section StoreFacts.
Context `{UnicodeTables} `{Upstream} `{GoRuntime}.

Lemma reloadFeature_Run_length (quarters : list string)
  (data : list transaction) :
  (length data <= length (snd (reloadFeature_Run quarters data)))%nat.
Proof.
  rewrite reloadFeature_Run_store, length_app, length_map. lia.
Qed.

End StoreFacts.

(** X20.  [load] and [reload] without a quarter print the error of
    [loadMultipleData]; [load] leaves the store as it was, [reload] has by
    then put a zero record in the place of every record. *)
Theorem load_and_reload_without_quarters
  `{UnicodeTables} `{Upstream} `{GoRuntime} (st : repl) :
  let message :=
    Printf ("%v" +:+ nl)
      [a_error
         (errorString "at least one quarter to be loaded must be specified")] in
  feature_Run ["load"] st
  = (Done [message], {| store := store st; running := running st |}) /\
  feature_Run ["reload"] st
  = (Done [message],
     {| store := map (fun _ => zero_transaction) (store st);
        running := running st |}).
Proof. split; reflexivity. Qed.

Lemma feature_Run_state
  `{UnicodeTables} `{Upstream} `{GoRuntime} (cli : list string) (st : repl) :
  let command := strings.ToLower (nth 0 cli "") in
  let st' := snd (feature_Run cli st) in
  (length (store st) <= length (store st'))%nat /\
  (command <> "reload" -> store st `prefix_of` store st') /\
  (command <> "load" -> command <> "reload" -> store st' = store st) /\
  (command <> "exit" -> command <> "quit" -> running st' = running st).
Proof.
  intros command st'. subst st'. unfold feature_Run. fold command.
  assert (forall out : outcome,
             (length (store st) <= length (store (snd (out, st))))%nat /\
             (command <> "reload" -> store st `prefix_of` store (snd (out, st))) /\
             (command <> "load" -> command <> "reload" ->
              store (snd (out, st)) = store st) /\
             (command <> "exit" -> command <> "quit" ->
              running (snd (out, st)) = running st)) as Hsame.
  { intros out. cbn [snd]. repeat split; auto. }
  destruct (String.eqb_spec command "help") as [E|_]; [apply Hsame|].
  destruct (String.eqb_spec command "exit") as [E|_];
    [cbn [orb snd store running]; repeat split; auto; congruence|].
  destruct (String.eqb_spec command "quit") as [E|_];
    [cbn [orb snd store running]; repeat split; auto; congruence|].
  cbn [orb].
  destruct (String.eqb_spec command "payers") as [E|_]; [apply Hsame|].
  destruct (String.eqb_spec command "recipients") as [E|_]; [apply Hsame|].
  destruct (String.eqb_spec command "quarters") as [E|_]; [apply Hsame|].
  destruct (String.eqb_spec command "load") as [E|_].
  { pose proof (loadFeature_Run_appends (drop 1 cli) (store st)) as Happ.
    destruct (loadFeature_Run (drop 1 cli) (store st)) as [out data].
    cbn [snd store running] in *. rewrite Happ.
    repeat split; auto; [rewrite length_app; lia| |congruence].
    intros _. now apply prefix_app_r. }
  destruct (String.eqb_spec command "reload") as [E|_].
  { pose proof (reloadFeature_Run_length (drop 1 cli) (store st)) as Hlen.
    destruct (reloadFeature_Run (drop 1 cli) (store st)) as [out data].
    cbn [snd store running] in *. repeat split; auto; congruence. }
  destruct (String.eqb_spec command "top") as [E|_]; [apply Hsame|].
  destruct (String.eqb_spec command "search") as [E|_]; [apply Hsame|].
  destruct (String.eqb_spec command "details") as [E|_]; [apply Hsame|].
  apply Hsame.
Qed.

(** X22.  No command takes a record off the store: every turn of the command
    loop leaves at least as many records as it found; every command but
    [reload] leaves the records it found in their places, the new ones
    after them; every command but [load] and [reload] leaves the store as
    it is, and every command but [exit] and [quit] leaves the loop
    running. *)
Theorem store_never_shrinks
  `{UnicodeTables} `{Upstream} `{GoRuntime} (cli : list string) (st : repl) :
  let command := strings.ToLower (nth 0 cli "") in
  let st' := snd (feature_Run cli st) in
  (length (store st) <= length (store st'))%nat /\
  (command <> "reload" -> store st `prefix_of` store st') /\
  (command <> "load" -> command <> "reload" -> store st' = store st) /\
  (command <> "exit" -> command <> "quit" -> running st' = running st).
Proof. apply feature_Run_state. Qed.

(** ** The loop of [main] *)

Lemma Split_not_nil (s : string) (sep : ascii) : strings.Split s sep <> [].
Proof.
  induction s as [|c s IH]; simpl; [discriminate|].
  destruct (Ascii.eqb c sep); [discriminate|].
  destruct (strings.Split s sep); discriminate.
Qed.

Lemma trimRightASCII_blank (text : string) :
  blank text = true -> strings.trimRightASCII text cutset = "".
Proof.
  unfold blank. induction text as [|c text IH]; [reflexivity|].
  cbn [list_ascii_of_string forallb strings.trimRightASCII].
  intros Hb. apply andb_true_iff in Hb as [Hc Hrest].
  rewrite (IH Hrest). cbv zeta. now rewrite Hc.
Qed.

Section MainFacts.
Context `{UnicodeTables} `{Upstream} `{GoRuntime}.

(** One turn of the loop on a line that was read. *)
Lemma main_loop_line (text : string) (reads : list (string + error))
  (st : repl) :
  running st = true ->
  main_loop (inl text :: reads) st
  = match feature_Run (strings.Split (strings.Trim text cutset) " ") st with
    | (Done out, st') =>
      (prompt ++ map Out out ++ fst (main_loop reads st'),
       snd (main_loop reads st'))
    | (Panic out p, _) => (prompt ++ map Out out, Panicked p)
    end.
Proof.
  intros Hrun. cbn [main_loop]. rewrite Hrun. cbn [negb].
  fold cutset. cbv zeta.
  destruct (Nat.eqb_spec
              (length (strings.Split (strings.Trim text cutset) " ")) 0)
    as [E|_].
  { apply length_zero_iff_nil in E. now apply Split_not_nil in E. }
  destruct (feature_Run _ st) as [[out|out p] st']; [|reflexivity].
  now destruct (main_loop reads st').
Qed.

Lemma main_loop_stopped (reads : list (string + error)) (st : repl) :
  running st = false ->
  main_loop reads st = ([Out (Println "Bye!")], Returned st).
Proof. intros Hrun. destruct reads; cbn [main_loop]; now rewrite Hrun. Qed.

Lemma main_loop_returns (reads : list (string + error)) (st st' : repl)
  (out : list call) :
  running st = true ->
  main_loop reads st = (out, Returned st') ->
  running st' = false /\
  exists text,
    inl text ∈ reads /\ (command_of text = "exit" \/ command_of text = "quit").
Proof.
  revert st out; induction reads as [|[text|err] reads IH];
    intros st out Hrun Hret.
  - cbn [main_loop] in Hret. rewrite Hrun in Hret. discriminate.
  - rewrite (main_loop_line text reads st Hrun) in Hret.
    pose proof (feature_Run_state
                  (strings.Split (strings.Trim text cutset) " ") st)
      as (_ & _ & _ & Hkeep).
    fold (command_of text) in Hkeep.
    destruct (feature_Run _ st) as [[out1|out1 p] st1]; [|discriminate].
    cbn [snd] in Hkeep.
    destruct (running st1) eqn:Hrun1.
    + destruct (main_loop reads st1) as [out2 e] eqn:E.
      cbn [fst snd] in Hret. injection Hret as _ ->.
      destruct (IH st1 out2 Hrun1 E) as (Hstop & text' & Hin & Hcmd).
      split; [exact Hstop|]. exists text'. split; [now right|exact Hcmd].
    + rewrite (main_loop_stopped reads st1 Hrun1) in Hret.
      cbn [fst snd] in Hret. injection Hret as _ <-.
      split; [exact Hrun1|]. exists text. split; [left|].
      destruct (String.eqb_spec (command_of text) "exit") as [|Hne1];
        [now left|].
      destruct (String.eqb_spec (command_of text) "quit") as [|Hne2];
        [now right|].
      specialize (Hkeep Hne1 Hne2). congruence.
  - cbn [main_loop] in Hret. rewrite Hrun in Hret. cbn [negb] in Hret.
    destruct (main_loop reads st) as [out2 e] eqn:E.
    injection Hret as _ ->.
    destruct (IH st out2 Hrun E) as (Hstop & text' & Hin & Hcmd).
    split; [exact Hstop|]. exists text'. split; [now right|exact Hcmd].
Qed.

End MainFacts.

(** X23.  A line of nothing but spaces, tabs and newlines is not passed over:
    [strings.Split] gives the one empty word, never an empty slice, so the
    turn answers [Unkown Command] and the loop goes on as it stood. *)
Theorem blank_line_is_unknown_command
  `{UnicodeTables} `{Upstream} `{GoRuntime} (text : string)
  (reads : list (string + error)) (st : repl) :
  running st = true -> blank text = true ->
  strings.Split (strings.Trim text cutset) " " = [""] /\
  main_loop (inl text :: reads) st
  = (prompt ++ Out (Println "Unkown Command") :: fst (main_loop reads st),
     snd (main_loop reads st)).
Proof.
  intros Hrun Hblank.
  assert (strings.Split (strings.Trim text cutset) " " = [""]) as Hcli.
  { unfold strings.Trim. now rewrite (trimRightASCII_blank text Hblank). }
  split; [exact Hcli|].
  rewrite (main_loop_line text reads st Hrun), Hcli. reflexivity.
Qed.

(** X25.  [main] returns only after it has read a line whose first word is
    [exit] or [quit] in some letter case. *)
Theorem main_returns_only_after_exit
  `{UnicodeTables} `{Upstream} `{GoRuntime} (args : list string)
  (reads : list (string + error)) (out : list call) (st : repl) :
  main args reads = (out, Returned st) ->
  running st = false /\
  exists text,
    inl text ∈ reads /\ (command_of text = "exit" \/ command_of text = "quit").
Proof.
  unfold main. intros Hret.
  destruct (loadMultipleData args []) as [[out0 data] err].
  destruct (main_loop reads {| store := data; running := true |})
    as [out1 e] eqn:E.
  injection Hret as _ ->.
  now apply (main_loop_returns reads {| store := data; running := true |}
                               st out1).
Qed.

(** X24.  A line whose first word is [exit] or [quit] in some letter case ends
    the loop: [Bye!] is printed, the store is as it was and no further
    line is read. *)
Theorem exit_and_quit_end_the_loop
  `{UnicodeTables} `{Upstream} `{GoRuntime} (text : string)
  (reads : list (string + error)) (st : repl) :
  running st = true ->
  command_of text = "exit" \/ command_of text = "quit" ->
  main_loop (inl text :: reads) st
  = (prompt ++ [Out (Println "Bye!")],
     Returned {| store := store st; running := false |}).
Proof.
  intros Hrun Hcmd. rewrite (main_loop_line text reads st Hrun).
  unfold feature_Run. fold (command_of text).
  destruct Hcmd as [-> | ->]; cbn [String.eqb Ascii.eqb Bool.eqb orb];
    now rewrite main_loop_stopped.
Qed.

(** X26.  A read that fails does not end the loop: after any run of failed
    reads the program has printed the prompt and the error for each, has
    prompted again and is reading, with the store as it was. *)
Theorem read_errors_do_not_end_the_loop
  `{UnicodeTables} `{Upstream} `{GoRuntime} (errs : list error) (st : repl) :
  running st = true ->
  main_loop (map inr errs) st
  = (concat (map (fun err => prompt ++ [read_error_line err]) errs) ++ prompt,
     Reading st).
Proof.
  intros Hrun. induction errs as [|err errs IH].
  - cbn [map main_loop]. now rewrite Hrun.
  - cbn [map main_loop]. rewrite Hrun. cbn [negb]. rewrite IH.
    cbn [concat map]. now rewrite <- !app_assoc.
Qed.

(** ** From the line to the arguments *)

Lemma Join_cons (x y : string) (ys : list string) (sep : string) :
  strings.Join (x :: y :: ys) sep = x +:+ sep +:+ strings.Join (y :: ys) sep.
Proof. reflexivity. Qed.

(** Splitting at the spaces and joining with spaces gives the text back. *)
Lemma Join_Split (s : string) :
  strings.Join (strings.Split s " ") " " = s.
Proof.
  induction s as [|c s IH]; [reflexivity|].
  cbn [strings.Split].
  pose proof (Split_not_nil s " ") as Hne.
  destruct (Ascii.eqb_spec c " ") as [->|_].
  - destruct (strings.Split s " ") as [|y ys]; [congruence|].
    rewrite Join_cons, IH. reflexivity.
  - destruct (strings.Split s " ") as [|y [|z zs]]; [congruence| |].
    + cbn [strings.Join] in *. now rewrite IH.
    + rewrite Join_cons in *. simpl_append. simpl_append_in IH.
      now rewrite IH.
Qed.

Lemma Split_app (a b : string) (sep : ascii) :
  strings.Split (a +:+ String sep b) sep
  = strings.Split a sep ++ strings.Split b sep.
Proof.
  induction a as [|c a IH]; simpl_append; cbn [strings.Split].
  - now rewrite Ascii.eqb_refl.
  - rewrite IH. destruct (Ascii.eqb c sep); [reflexivity|].
    pose proof (Split_not_nil a sep) as Hne.
    destruct (strings.Split a sep); [congruence|reflexivity].
Qed.

Lemma append_empty (a b : string) : a +:+ b = "" -> b = "".
Proof. destruct a; [auto|discriminate]. Qed.

(** Trimming on the right goes through what stands before a part that
    holds a byte to keep. *)
Lemma trimRightASCII_app (a b cutset : string) :
  strings.trimRightASCII (a +:+ b) cutset
  = if String.eqb (strings.trimRightASCII b cutset) ""
    then strings.trimRightASCII a cutset
    else a +:+ strings.trimRightASCII b cutset.
Proof.
  induction a as [|c a IH]; simpl_append; cbn [strings.trimRightASCII].
  - destruct (String.eqb_spec (strings.trimRightASCII b cutset) "");
      [assumption|reflexivity].
  - cbv zeta. rewrite IH.
    destruct (String.eqb_spec (strings.trimRightASCII b cutset) "") as [E|E];
      [reflexivity|].
    destruct (String.eqb_spec (a +:+ strings.trimRightASCII b cutset) "")
      as [E'|E']; [now apply append_empty in E'|].
    reflexivity.
Qed.

(** X9.  The line [details <role> <name>] reaches [details] with the name as
    it stands in the line, spaces included: the words the line is split
    into are joined again.  Blanks at the end of the line are trimmed. *)
Theorem details_takes_the_name_verbatim
  `{UnicodeTables} `{Upstream} `{GoRuntime} (r : role) (name : string)
  (reads : list (string + error)) (st : repl) :
  running st = true ->
  strings.trimRightASCII name cutset = name ->
  main_loop
    (inl ("details " +:+ role_token r +:+ " " +:+ name +:+ nl) :: reads) st
  = match details_report r name (store st) with
    | Done out =>
      (prompt ++ map Out out ++ fst (main_loop reads st),
       snd (main_loop reads st))
    | Panic out p => (prompt ++ map Out out, Panicked p)
    end.
Proof.
  intros Hrun Hname. rewrite (main_loop_line _ reads st Hrun).
  assert (strings.Split
            (strings.Trim
               ("details " +:+ role_token r +:+ " " +:+ name +:+ nl) cutset)
            " "
          = "details" :: role_token r
              :: (if String.eqb name "" then [] else strings.Split name " "))
    as ->.
  { unfold strings.Trim.
    replace ("details " +:+ role_token r +:+ " " +:+ name +:+ nl)
      with (("details " +:+ role_token r +:+ " ") +:+ (name +:+ nl))
      by (destruct r; reflexivity).
    rewrite trimRightASCII_app, (trimRightASCII_app name nl).
    change (strings.trimRightASCII nl cutset) with "".
    cbn [String.eqb]. rewrite Hname.
    destruct (String.eqb_spec name "") as [->|Hne].
    - destruct r; reflexivity.
    - replace (("details " +:+ role_token r +:+ " ") +:+ name)
        with (("details " +:+ role_token r) +:+ String " " name)
        by (destruct r; reflexivity).
      assert (forall s, strings.trimLeftASCII
                          (("details " +:+ role_token r) +:+ s) cutset
                        = ("details " +:+ role_token r) +:+ s) as ->
        by (intros s; destruct r; reflexivity).
      rewrite Split_app. destruct r; reflexivity. }
  unfold feature_Run.
  change (strings.ToLower (nth 0 ("details" :: _) "")) with "details".
  cbn [String.eqb Ascii.eqb Bool.eqb orb drop].
  assert (strings.Join
            (if String.eqb name "" then [] else strings.Split name " ") " "
          = name) as Hjoin.
  { destruct (String.eqb_spec name "") as [->|_]; [reflexivity|].
    apply Join_Split. }
  rewrite details_valid_invocation, Hjoin.
  destruct (details_report r name (store st)); reflexivity.
Qed.

(** ** The comparator, letter case and prefixes *)

Section CaseFacts.
Context `{UnicodeTables}.

Lemma byte_val_range (c : ascii) : 0 <= byte_val c < 256.
Proof. unfold byte_val. pose proof (N_ascii_bounded c). lia. Qed.

Lemma byte_val_ascii_of_N (z : Z) :
  0 <= z < 256 -> byte_val (ascii_of_N (Z.to_N z)) = z.
Proof.
  intros Hz. unfold byte_val. rewrite N_ascii_embedding by lia. lia.
Qed.

Lemma lowerASCII_isASCII (s : string) :
  strings.isASCII s = true -> strings.isASCII (strings.lowerASCII s) = true.
Proof.
  induction s as [|c s IH]; [reflexivity|].
  cbn [strings.isASCII strings.lowerASCII]. cbv zeta.
  change utf8.RuneSelf with 128. change (byte_val "A") with 65.
  change (byte_val "Z") with 90. change (byte_val "a") with 97.
  destruct (Z.geb_spec (byte_val c) 128) as [|Hc]; [discriminate|].
  intros Hs.
  destruct ((65 <=? byte_val c) && (byte_val c <=? 90)) eqn:Hup.
  - apply andb_true_iff in Hup as [Hlo Hhi]. apply Z.leb_le in Hlo, Hhi.
    rewrite byte_val_ascii_of_N by lia.
    destruct (Z.geb_spec (byte_val c + (97 - 65)) 128); [lia|]. now apply IH.
  - destruct (Z.geb_spec (byte_val c) 128); [lia|]. now apply IH.
Qed.

(** On an ASCII string [strings.ToLower] changes nothing that the
    comparator looks at. *)
Lemma folded_ToLower_ascii (s : string) :
  strings.isASCII s = true -> folded (strings.ToLower s) = folded s.
Proof.
  intros Hs. unfold strings.ToLower. rewrite Hs. unfold folded.
  rewrite (runes_ascii _ (lowerASCII_isASCII s Hs)), (runes_ascii s Hs).
  induction s as [|c s IH]; [reflexivity|].
  cbn [strings.isASCII] in Hs.
  change utf8.RuneSelf with 128 in Hs.
  destruct (Z.geb_spec (byte_val c) 128) as [|Hc]; [discriminate|].
  cbn [strings.lowerASCII list_ascii_of_string map]. cbv zeta.
  rewrite (IH Hs). f_equal.
  pose proof (byte_val_range c) as Hr.
  unfold unicode.ToLower.
  change unicode.MaxASCII with 127. change (byte_val "A") with 65.
  change (byte_val "Z") with 90. change (byte_val "a") with 97.
  destruct ((65 <=? byte_val c) && (byte_val c <=? 90)) eqn:Hup.
  - apply andb_true_iff in Hup as [Hlo Hhi]. apply Z.leb_le in Hlo, Hhi.
    rewrite byte_val_ascii_of_N by lia.
    destruct (Z.leb_spec (byte_val c + (97 - 65)) 127); [|lia].
    destruct (Z.leb_spec (byte_val c) 127); [|lia].
    destruct (Z.leb_spec (byte_val c + (97 - 65)) 90); [lia|].
    now rewrite andb_false_r.
  - now rewrite Hup.
Qed.

Lemma runes_app_ascii (a c : string) :
  strings.isASCII a = true ->
  runes (a +:+ c) = map byte_val (list_ascii_of_string a) ++ runes c.
Proof.
  induction a as [|x a IH]; intros Ha; [reflexivity|].
  cbn [strings.isASCII] in Ha.
  destruct (Z.geb_spec (byte_val x) utf8.RuneSelf) as [|Hx]; [discriminate|].
  simpl_append. rewrite runes_nonempty by discriminate.
  rewrite (DecodeRuneInString_ascii x _ Hx).
  cbn [fst snd str_from list_ascii_of_string map app]. now rewrite IH.
Qed.

End CaseFacts.

(** X27.  On ASCII strings the comparator gives the same answer before and
    after [strings.ToLower], on either side or on both; a string and its
    lower-case form are not ordered one before the other. *)
Theorem lessLower_ignores_ascii_case
  `{UnicodeTables} (a b : string) :
  strings.isASCII a = true -> strings.isASCII b = true ->
  lessLower (strings.ToLower a) (strings.ToLower b) = lessLower a b /\
  lessLower (strings.ToLower a) b = lessLower a b /\
  lessLower a (strings.ToLower b) = lessLower a b /\
  lessLower a (strings.ToLower a) = false /\
  lessLower (strings.ToLower a) a = false.
Proof.
  intros Ha Hb. rewrite !lessLower_folded.
  rewrite (folded_ToLower_ascii a Ha), (folded_ToLower_ascii b Hb).
  repeat split; auto using lex_lt_irrefl.
Qed.

(** X28.  An ASCII string is less than every string it is a proper prefix of,
    and none of those is less than it; so the empty string is less than
    every other string. *)
Theorem lessLower_proper_prefix
  `{UnicodeTables} (a c : string) :
  strings.isASCII a = true -> c <> "" ->
  lessLower a (a +:+ c) = true /\ lessLower (a +:+ c) a = false.
Proof.
  intros Ha Hc.
  assert (lessLower a (a +:+ c) = true) as Hlt.
  { rewrite lessLower_folded. unfold folded.
    rewrite (runes_app_ascii a c Ha), (runes_ascii a Ha), map_app.
    rewrite (runes_nonempty c Hc). cbn [map]. apply lex_lt_prefix. }
  split; [exact Hlt|]. now apply lessLower_asym.
Qed.

(** ** A listing after [reload] *)

Lemma lessLower_empty_l `{UnicodeTables} (s : string) :
  s <> "" -> lessLower "" s = true.
Proof.
  intros Hs. rewrite lessLower_folded. unfold folded.
  now rewrite (runes_nonempty s Hs).
Qed.

(** X21.  After a [reload] on a store that held a record, every listing begins
    with an empty line: the zero records that [clear] leaves carry the
    empty string in each field, and nothing is less than the empty
    string. *)
Theorem listing_after_reload_begins_blank
  `{UnicodeTables} `{Upstream} `{GoRuntime} (quarters : list string)
  (st : repl) (mapper : transaction -> string) :
  store st <> [] -> mapper zero_transaction = "" ->
  exists rest,
    printUniqueResults mapper
      (store (snd (feature_Run ("reload" :: quarters) st)))
    = Printf (tab +:+ "%s" +:+ nl) [a_string ""] :: rest.
Proof.
  intros Hst Hzero.
  assert (store (snd (feature_Run ("reload" :: quarters) st))
          = map (fun _ => zero_transaction) (store st)
            ++ snd (loadFeature_Run quarters [])) as ->.
  { unfold feature_Run.
    change (strings.ToLower (nth 0 ("reload" :: quarters) "")) with "reload".
    change (drop 1 ("reload" :: quarters)) with quarters.
    cbn [String.eqb Ascii.eqb Bool.eqb orb].
    rewrite <- reloadFeature_Run_store.
    destruct (reloadFeature_Run quarters (store st)). reflexivity. }
  destruct (printUniqueResults_keys mapper
              (map (fun _ => zero_transaction) (store st)
               ++ snd (loadFeature_Run quarters [])))
    as (keys & -> & Hnd & Hin & Hs & _).
  assert ("" ∈ keys) as Hblank.
  { apply Hin. exists zero_transaction. split; [|exact Hzero].
    destruct (store st) as [|t data]; [congruence|]. left. }
  destruct keys as [|k keys]; [now apply elem_of_nil in Hblank|].
  destruct (String.eqb_spec k "") as [->|Hk]; [eexists; reflexivity|].
  apply elem_of_cons in Hblank as [E|Hblank]; [congruence|].
  apply list_elem_of_lookup in Hblank as [j Hj].
  specialize (Hs 0%nat (S j) k "" ltac:(lia) eq_refl Hj).
  rewrite (lessLower_empty_l k Hk) in Hs. discriminate.
Qed.

(** ** When [search] panics *)

(** X5.  [search] panics in one case only: with two arguments or more, a role
    that is neither [payers] nor [recipients], and a store that holds a
    record; the panic is the call of the nil [mapper]. *)
Theorem search_panics_only_on_invalid_role
  `{UnicodeTables} `{GoRuntime} (arguments : list string)
  (data : list transaction) (out : list event) (f : panic) :
  searchFeature_Run arguments data = Panic out f ->
  (2 <= length arguments)%nat /\
  nth 0 arguments "" <> "payers" /\ nth 0 arguments "" <> "recipients" /\
  data <> [] /\ f = nil_func_call.
Proof.
  unfold searchFeature_Run.
  destruct (Nat.ltb_spec (length arguments) 2) as [|Hlen]; [discriminate|].
  cbv zeta.
  set (searchTerm := strings.ToLower (strings.Join (drop 1 arguments) " ")).
  destruct (String.eqb_spec (nth 0 arguments "") "payers") as [|Hp].
  { destruct (search_loop_dom getRechtstraeger searchTerm data ∅)
      as (set & -> & _). discriminate. }
  destruct (String.eqb_spec (nth 0 arguments "") "recipients") as [|Hr].
  { destruct (search_loop_dom getMedieninhaber searchTerm data ∅)
      as (set & -> & _). discriminate. }
  destruct data as [|t data]; [cbn [search_loop]; discriminate|].
  cbn [search_loop]. intros Hrun. injection Hrun as _ <-.
  repeat split; auto.
Qed.

(** ** The further properties on concrete inputs *)

(** [top 2 Payers 2] on the store of the worked example. *)
Lemma top_prints_the_first_n_witness :
  strconv.ParseUint "2" 8 = inl 2 /\ 0 < 2 /\
  @strings.ToLower latin1Tables "Payers" = role_token payers /\
  strconv.ParseUint "2" 8 = inl (paragraph_code par2) /\
  2 <= Z.of_nat
         (group_count payers par2
            (example_store "M" "N" "O" "20231" "20231" "20232")) /\
  exists ranking w1 w2,
    @topFeature_Run latin1Tables demoRuntime ["2"; "Payers"; "2"]
      (example_store "M" "N" "O" "20231" "20231" "20232")
    = Done (print_rows w1 w2 (take (Z.to_nat 2) ranking)) /\
    length (print_rows w1 w2 (take (Z.to_nat 2) ranking)) = Z.to_nat 2.
Proof.
  split; [reflexivity|]. split; [lia|]. split; [reflexivity|].
  split; [reflexivity|]. split; [vm_compute; discriminate|].
  destruct (@top_prints_the_first_n latin1Tables demoRuntime
              "2" "Payers" "2" 2 payers par2
              (example_store "M" "N" "O" "20231" "20231" "20232"))
    as (ranking & w1 & w2 & Hrun & Hlen & _);
    [reflexivity | lia | reflexivity | reflexivity
    | vm_compute; discriminate |].
  exists ranking, w1, w2. split; assumption.
Defined.

(** [top 1 payer 2] and [details Payers A]: [payer] is no role, and
    [Payers] is none for [details], which [top] takes for [payers]. *)
Lemma invalid_role_only_prints_witness :
  strconv.ParseUint "1" 8 = inl 1 /\
  @strings.ToLower latin1Tables "payer" <> "payers" /\
  @strings.ToLower latin1Tables "payer" <> "recipients" /\
  "Payers" <> "payers" /\ "Payers" <> "recipients" /\
  @topFeature_Run latin1Tables demoRuntime ["1"; "payer"; "2"] [record_A]
  = Done [Printf invalid_role_format [a_string "payer"]] /\
  @detailsFeature_Run demoRuntime ["Payers"; "A"] [record_A]
  = Done [Printf invalid_role_format [a_string "Payers"]] /\
  @topFeature_Run latin1Tables demoRuntime ["1"; "Payers"; "2"] [record_A]
  = @topFeature_Run latin1Tables demoRuntime ["1"; "payers"; "2"] [record_A].
Proof.
  split; [reflexivity|]. split; [discriminate|]. split; [discriminate|].
  split; [discriminate|]. split; [discriminate|]. split; [|split].
  - apply (proj1 (@invalid_role_only_prints latin1Tables demoRuntime
                    "1" "payer" "2" 1 ["A"] [record_A]));
      [reflexivity | discriminate | discriminate].
  - apply (proj2 (@invalid_role_only_prints latin1Tables demoRuntime
                    "1" "Payers" "2" 1 ["A"] [record_A])); discriminate.
  - reflexivity.
Defined.

(** [top 1 PaYeRs 2] runs as [top 1 payers 2]. *)
Lemma top_role_in_any_case_witness :
  @strings.ToLower latin1Tables "PaYeRs" = role_token payers /\
  @topFeature_Run latin1Tables demoRuntime ["1"; "PaYeRs"; "2"] [record_A]
  = @topFeature_Run latin1Tables demoRuntime ["1"; "payers"; "2"] [record_A].
Proof.
  split; [reflexivity|].
  apply (@top_role_in_any_case latin1Tables demoRuntime
           "1" "PaYeRs" "2" payers [record_A]).
  reflexivity.
Defined.

(** [top 0 payers 3] is turned down for its count, [top 1 payers 3] for
    its paragraph. *)
Lemma top_rejects_zero_and_unknown_paragraph_witness :
  strconv.ParseUint "0" 8 = inl 0 /\ strconv.ParseUint "1" 8 = inl 1 /\
  @strings.ToLower latin1Tables "payers" = role_token payers /\
  strconv.ParseUint "3" 8 = inl 3 /\
  @topFeature_Run latin1Tables demoRuntime ["0"; "payers"; "3"] [record_A]
  = Done [Printf ("%d is not a valid input for parameter amount" +:+ nl)
                 [a_int 0]] /\
  @topFeature_Run latin1Tables demoRuntime ["1"; "payers"; "3"] [record_A]
  = Done [Printf ("%d is not a valid input for parameter bekanntgabe" +:+ nl)
                 [a_int 3]].
Proof.
  split; [reflexivity|]. split; [reflexivity|]. split; [reflexivity|].
  split; [reflexivity|]. split.
  - apply (@top_rejects_zero_and_unknown_paragraph latin1Tables demoRuntime
             "0" "payers" "3" 0 3 payers [record_A]); reflexivity.
  - apply (@top_rejects_zero_and_unknown_paragraph latin1Tables demoRuntime
             "1" "payers" "3" 1 3 payers [record_A]);
      reflexivity || lia.
Defined.

(** The panic of [top 2 payers 2] on a store with one group. *)
Lemma top_panics_only_above_the_groups_witness :
  @topFeature_Run latin1Tables demoRuntime ["2"; "payers"; "2"] [record_A]
  = Panic [] (slice_bounds_out_of_range 2 1) /\
  exists arg0 arg1 arg2 n r p,
    ["2"; "payers"; "2"] = [arg0; arg1; arg2] /\
    strconv.ParseUint arg0 8 = inl n /\
    @strings.ToLower latin1Tables arg1 = role_token r /\
    strconv.ParseUint arg2 8 = inl (paragraph_code p) /\
    Z.of_nat (group_count r p [record_A]) < n.
Proof.
  split; [reflexivity|].
  apply (@top_panics_only_above_the_groups latin1Tables demoRuntime
           ["2"; "payers"; "2"] [record_A] []
           (slice_bounds_out_of_range 2 1)).
  reflexivity.
Defined.

(** Two upstreams that differ on [2023x], which is no quarter. *)
Lemma invalid_quarters_are_not_requested_witness :
  (forall q, @isValidQuarter latin1Tables q = true ->
             @fetch demoUpstream q = @fetch strayUpstream q) /\
  @fetch demoUpstream "2023x" <> @fetch strayUpstream "2023x" /\
  @goroutineOrder demoUpstream ["20231"; "2023x"]
  = @goroutineOrder strayUpstream ["20231"; "2023x"] /\
  snd (fst (@loadMultipleData latin1Tables demoUpstream
              ["20231"; "2023x"] []))
  = snd (fst (@loadMultipleData latin1Tables strayUpstream
                ["20231"; "2023x"] [])) /\
  snd (@loadMultipleData latin1Tables demoUpstream ["20231"; "2023x"] [])
  = snd (@loadMultipleData latin1Tables strayUpstream ["20231"; "2023x"] []).
Proof.
  assert (forall q, @isValidQuarter latin1Tables q = true ->
                    @fetch demoUpstream q = @fetch strayUpstream q) as Hfetch.
  { intros q Hq. cbn [fetch strayUpstream].
    destruct (String.eqb_spec q "2023x") as [->|_]; [|reflexivity].
    vm_compute in Hq. discriminate Hq. }
  split; [exact Hfetch|]. split; [discriminate|]. split; [reflexivity|].
  apply (proj2 (@invalid_quarters_are_not_requested latin1Tables
                  demoUpstream strayUpstream ["20231"; "2023x"] [] Hfetch)).
  reflexivity.
Defined.

(** A line of two spaces and a tab. *)
Lemma blank_line_is_unknown_command_witness :
  blank ("  " +:+ tab +:+ nl) = true /\
  @main_loop latin1Tables demoUpstream demoRuntime
    [inl ("  " +:+ tab +:+ nl)] {| store := [record_A]; running := true |}
  = (prompt ++ [Out (Println "Unkown Command")] ++ prompt,
     Reading {| store := [record_A]; running := true |}).
Proof.
  split; [reflexivity|].
  apply (@blank_line_is_unknown_command latin1Tables demoUpstream demoRuntime
           ("  " +:+ tab +:+ nl) [] {| store := [record_A]; running := true |});
    reflexivity.
Defined.

(** The program started on [20231] and given the line [Quit]. *)
Lemma main_returns_only_after_exit_witness :
  snd (@main latin1Tables demoUpstream demoRuntime
         ["20231"] [inl ("Quit" +:+ nl)])
  = Returned {| store := [record_A]; running := false |} /\
  exists text,
    inl text ∈ [inl ("Quit" +:+ nl) : string + error] /\
    (@command_of latin1Tables text = "exit"
     \/ @command_of latin1Tables text = "quit").
Proof.
  split; [reflexivity|].
  apply (@main_returns_only_after_exit latin1Tables demoUpstream demoRuntime
           ["20231"] [inl ("Quit" +:+ nl)]
           (fst (@main latin1Tables demoUpstream demoRuntime
                   ["20231"] [inl ("Quit" +:+ nl)]))
           {| store := [record_A]; running := false |}).
  reflexivity.
Defined.

(** The line [ EXIT now], with a [help] after it that is never read. *)
Lemma exit_and_quit_end_the_loop_witness :
  @command_of latin1Tables (" EXIT now" +:+ nl) = "exit" /\
  @main_loop latin1Tables demoUpstream demoRuntime
    [inl (" EXIT now" +:+ nl); inl ("help" +:+ nl)]
    {| store := [record_A]; running := true |}
  = (prompt ++ [Out (Println "Bye!")],
     Returned {| store := [record_A]; running := false |}).
Proof.
  split; [reflexivity|].
  apply (@exit_and_quit_end_the_loop latin1Tables demoUpstream demoRuntime
           (" EXIT now" +:+ nl) [inl ("help" +:+ nl)]
           {| store := [record_A]; running := true |});
    [reflexivity|left; reflexivity].
Defined.

(** Two reads that fail at the end of the input. *)
Lemma read_errors_do_not_end_the_loop_witness :
  @main_loop latin1Tables demoUpstream demoRuntime
    [inr (errorString "EOF"); inr (errorString "EOF")]
    {| store := [record_A]; running := true |}
  = (prompt ++ [read_error_line (errorString "EOF")]
     ++ prompt ++ [read_error_line (errorString "EOF")] ++ prompt,
     Reading {| store := [record_A]; running := true |}).
Proof.
  apply (@read_errors_do_not_end_the_loop latin1Tables demoUpstream demoRuntime
           [errorString "EOF"; errorString "EOF"]
           {| store := [record_A]; running := true |}).
  reflexivity.
Defined.

(** The line [details payers A  B], the name with two spaces in it. *)
Lemma details_takes_the_name_verbatim_witness :
  strings.trimRightASCII "A  B" cutset = "A  B" /\
  fmt.texts_of
    match @details_report demoRuntime payers "A  B" [record_AB] with
    | Done out => out
    | Panic out _ => out
    end
  = Some [tab +:+ "Payments §2:" +:+ nl;
          tab +:+ "Payments §4:" +:+ nl;
          tab +:+ "  1. M - 10.00€" +:+ nl;
          tab +:+ "Payments §31:" +:+ nl] /\
  @main_loop latin1Tables demoUpstream demoRuntime
    [inl ("details " +:+ role_token payers +:+ " " +:+ "A  B" +:+ nl)]
    {| store := [record_AB]; running := true |}
  = match @details_report demoRuntime payers "A  B" [record_AB] with
    | Done out =>
      (prompt ++ map Out out
         ++ fst (@main_loop latin1Tables demoUpstream demoRuntime []
                   {| store := [record_AB]; running := true |}),
       snd (@main_loop latin1Tables demoUpstream demoRuntime []
              {| store := [record_AB]; running := true |}))
    | Panic out p => (prompt ++ map Out out, Panicked p)
    end.
Proof.
  split; [reflexivity|]. split; [reflexivity|].
  apply (@details_takes_the_name_verbatim latin1Tables demoUpstream demoRuntime
           payers "A  B" [] {| store := [record_AB]; running := true |});
    reflexivity.
Defined.

(** [details payers Z] on a store that knows no [Z]. *)
Lemma details_no_match_prints_labels_witness :
  matching payers (strings.Join ["Z"] " ") [record_A] = [] /\
  @detailsFeature_Run demoRuntime ["payers"; "Z"] [record_A]
  = Done [Println (tab +:+ "Payments §2:");
          Println (tab +:+ "Payments §4:");
          Println (tab +:+ "Payments §31:")].
Proof.
  split; [reflexivity|].
  apply (@details_no_match_prints_labels demoRuntime payers ["Z"] [record_A]).
  reflexivity.
Defined.

(** [Bund] and [ARBEIT]. *)
Lemma lessLower_ignores_ascii_case_witness :
  strings.isASCII "Bund" = true /\ strings.isASCII "ARBEIT" = true /\
  @lessLower latin1Tables (@strings.ToLower latin1Tables "Bund")
                          (@strings.ToLower latin1Tables "ARBEIT")
  = @lessLower latin1Tables "Bund" "ARBEIT" /\
  @lessLower latin1Tables "ARBEIT" "Bund" = true.
Proof.
  split; [reflexivity|]. split; [reflexivity|]. split.
  - apply (@lessLower_ignores_ascii_case latin1Tables "Bund" "ARBEIT");
      reflexivity.
  - rewrite lessLower_folded. reflexivity.
Defined.

(** [Wien] and [Wien Energie]. *)
Lemma lessLower_proper_prefix_witness :
  strings.isASCII "Wien" = true /\ " Energie" <> "" /\
  @lessLower latin1Tables "Wien" ("Wien" +:+ " Energie") = true /\
  @lessLower latin1Tables ("Wien" +:+ " Energie") "Wien" = false.
Proof.
  split; [reflexivity|]. split; [discriminate|].
  apply (@lessLower_proper_prefix latin1Tables "Wien" " Energie");
    [reflexivity|discriminate].
Defined.

(** [reload 20232] on a store of one record, then [payers]. *)
Lemma listing_after_reload_begins_blank_witness :
  [record_A] <> [] /\ getRechtstraeger zero_transaction = "" /\
  exists rest,
    @printUniqueResults latin1Tables demoRuntime getRechtstraeger
      (store (snd (@feature_Run latin1Tables demoUpstream demoRuntime
                     ["reload"; "20232"]
                     {| store := [record_A]; running := true |})))
    = Printf (tab +:+ "%s" +:+ nl) [a_string ""] :: rest.
Proof.
  split; [discriminate|]. split; [reflexivity|].
  apply (@listing_after_reload_begins_blank latin1Tables demoUpstream
           demoRuntime ["20232"] {| store := [record_A]; running := true |}
           getRechtstraeger);
    [discriminate|reflexivity].
Defined.

(** The panic of [search foo bar] on a store of one record. *)
Lemma search_panics_only_on_invalid_role_witness :
  @searchFeature_Run latin1Tables demoRuntime ["foo"; "bar"] [record_A]
  = Panic [Printf invalid_role_format [a_string "foo"]] nil_func_call /\
  (2 <= length ["foo"; "bar"])%nat /\
  nth 0 ["foo"; "bar"] "" <> "payers" /\
  nth 0 ["foo"; "bar"] "" <> "recipients" /\
  [record_A] <> [] /\ nil_func_call = nil_func_call.
Proof.
  split; [reflexivity|].
  apply (@search_panics_only_on_invalid_role latin1Tables demoRuntime
           ["foo"; "bar"] [record_A]
           [Printf invalid_role_format [a_string "foo"]] nil_func_call).
  reflexivity.
Defined.

(** ** Loads one after the other, and loads that fail *)

(** X19.  Loading in two steps leaves the records that loading all the quarters
    at once leaves, the batches of the second step after those of the
    first; a quarter that is loaded again has its records in the store
    again.  The upstream answers the same for a quarter each time. *)
Theorem load_in_two_steps
  `{UnicodeTables} `{Upstream} (q1 q2 : string) (qs1 qs2 : list string)
  (data : list transaction) :
  let first := snd (loadFeature_Run (q1 :: qs1) data) in
  let second := snd (loadFeature_Run (q2 :: qs2) first) in
  second ≡ₚ snd (loadFeature_Run ((q1 :: qs1) ++ q2 :: qs2) data) /\
  (exists batch1 batch2,
      second = data ++ batch1 ++ batch2 /\
      batch1 ≡ₚ concat (map records (q1 :: qs1)) /\
      batch2 ≡ₚ concat (map records (q2 :: qs2))) /\
  snd (loadFeature_Run [q1] (snd (loadFeature_Run [q1] data)))
  ≡ₚ data ++ records q1 ++ records q1.
Proof.
  intros first second. subst first second.
  rewrite !loadFeature_Run_store, !loadMultipleData_store.
  split; [|split].
  - change ((q1 :: qs1) ++ q2 :: qs2) with (q1 :: qs1 ++ q2 :: qs2).
    rewrite loadMultipleData_store, !goroutineOrder_perm.
    change (q1 :: qs1 ++ q2 :: qs2) with ((q1 :: qs1) ++ q2 :: qs2).
    now rewrite map_app, concat_app, <- app_assoc.
  - exists (concat (map records (goroutineOrder (q1 :: qs1)))),
      (concat (map records (goroutineOrder (q2 :: qs2)))).
    split; [now rewrite <- app_assoc|].
    split; now rewrite goroutineOrder_perm.
  - rewrite !goroutineOrder_perm. cbn [map concat].
    now rewrite !app_nil_r, <- app_assoc.
Qed.

Lemma Error_text_join (messages : list string) :
  Error_text (joinError (map errorString messages))
  = Some (strings.Join messages nl).
Proof.
  cbn [Error_text].
  assert ((fix texts (errs : list error) : option (list string) :=
             match errs with
             | [] => Some []
             | e :: errs' =>
               match Error_text e, texts errs' with
               | Some t, Some ts => Some (t :: ts)
               | _, _ => None
               end
             end) (map errorString messages) = Some messages) as ->;
    [|reflexivity].
  induction messages as [|m messages IH]; [reflexivity|].
  cbn [map Error_text]. now rewrite IH.
Qed.

(** X18.  A load of codes none of which is a valid quarter prints no progress
    line and leaves the store as it was.  It makes one call of [Printf],
    on the join of one cause [<code> is not a valid quarter] for each
    code, in the order in which the goroutines got to append them; the
    text of the join holds these messages with a newline between one and
    the next, a line for each code. *)
Theorem load_of_invalid_quarters
  `{UnicodeTables} `{Upstream} (q : string) (qs : list string)
  (data : list transaction) :
  Forall (fun q => isValidQuarter q = false) (q :: qs) ->
  exists order,
    order ≡ₚ q :: qs /\
    loadFeature_Run (q :: qs) data
    = ([Printf ("%v" +:+ nl)
               [a_error
                  (joinError
                     (map (fun q => errorString
                                      (q +:+ " is not a valid quarter"))
                          order))]],
       data) /\
    Error_text
      (joinError
         (map (fun q => errorString (q +:+ " is not a valid quarter")) order))
    = Some (strings.Join
              (map (fun q => q +:+ " is not a valid quarter") order) nl).
Proof.
  intros Hbad.
  assert (forall order st,
             Forall (fun q => isValidQuarter q = false) order ->
             fold_left goroutine order st
             = {| printed := printed st;
                  errs := errs st
                          ++ map (fun q => errorString
                                             (q +:+ " is not a valid quarter"))
                                 order;
                  loaded := loaded st |}) as Hfold.
  { induction order as [|x order IH]; intros st Hall.
    - cbn [fold_left map]. rewrite app_nil_r. now destruct st.
    - apply Forall_cons in Hall as [Hx Hall]. cbn [fold_left].
      rewrite (IH _ Hall). unfold goroutine, loadData. rewrite Hx.
      cbn [negb printed errs loaded map]. now rewrite app_nil_r, <- app_assoc. }
  assert (Forall (fun q => isValidQuarter q = false) (goroutineOrder (q :: qs)))
    as Hbad' by now rewrite goroutineOrder_perm.
  exists (goroutineOrder (q :: qs)).
  split; [apply goroutineOrder_perm|]. split.
  - unfold loadFeature_Run, loadMultipleData. cbn [length Nat.eqb].
    rewrite (Hfold _ _ Hbad'). cbn [printed errs loaded app].
    pose proof (goroutineOrder_perm (q :: qs)) as Hp.
    destruct (goroutineOrder (q :: qs)) as [|x order];
      [now apply Permutation_nil_cons in Hp|].
    reflexivity.
  - rewrite <- (map_map (fun q => q +:+ " is not a valid quarter") errorString).
    apply Error_text_join.
Qed.

(** ** [search] and the letter case of its words *)

Section SearchCaseFacts.
Context `{UnicodeTables}.

Lemma isASCII_app (a b : string) :
  strings.isASCII (a +:+ b) = strings.isASCII a && strings.isASCII b.
Proof.
  induction a as [|c a IH]; [reflexivity|].
  simpl_append. cbn [strings.isASCII].
  now destruct (byte_val c >=? utf8.RuneSelf).
Qed.

Lemma lowerASCII_app (a b : string) :
  strings.lowerASCII (a +:+ b)
  = strings.lowerASCII a +:+ strings.lowerASCII b.
Proof.
  induction a as [|c a IH]; [reflexivity|].
  simpl_append. cbn [strings.lowerASCII]. cbv zeta. simpl_append.
  now rewrite IH.
Qed.

Lemma lowerASCII_idem (s : string) :
  strings.lowerASCII (strings.lowerASCII s) = strings.lowerASCII s.
Proof.
  induction s as [|c s IH]; [reflexivity|].
  cbn [strings.lowerASCII]. cbv zeta. rewrite IH. f_equal.
  change (byte_val "A") with 65. change (byte_val "Z") with 90.
  change (byte_val "a") with 97.
  pose proof (byte_val_range c) as Hr.
  destruct ((65 <=? byte_val c) && (byte_val c <=? 90)) eqn:Hup.
  - apply andb_true_iff in Hup as [Hlo Hhi]. apply Z.leb_le in Hlo, Hhi.
    rewrite byte_val_ascii_of_N by lia.
    destruct (Z.leb_spec (byte_val c + (97 - 65)) 90); [lia|].
    now rewrite andb_false_r.
  - now rewrite Hup.
Qed.

Lemma ToLower_ascii (s : string) :
  strings.isASCII s = true -> strings.ToLower s = strings.lowerASCII s.
Proof. intros Hs. unfold strings.ToLower. now rewrite Hs. Qed.

(** Joining lower-cased ASCII words and lower-casing the join of the
    words give the same string. *)
Lemma ToLower_Join_ascii (words : list string) :
  Forall (fun w => strings.isASCII w = true) words ->
  strings.isASCII (strings.Join words " ") = true /\
  strings.isASCII (strings.Join (map strings.ToLower words) " ") = true /\
  strings.lowerASCII (strings.Join (map strings.ToLower words) " ")
  = strings.lowerASCII (strings.Join words " ").
Proof.
  induction 1 as [|w words Hw Hall IH]; [repeat split|].
  destruct IH as (IH1 & IH2 & IH3).
  destruct words as [|w' words].
  - cbn [map strings.Join]. rewrite (ToLower_ascii w Hw).
    repeat split; auto using lowerASCII_isASCII, lowerASCII_idem.
  - cbn [map] in *. rewrite !Join_cons.
    rewrite !isASCII_app, !lowerASCII_app, IH1, IH2, IH3, Hw.
    rewrite (ToLower_ascii w Hw), (lowerASCII_isASCII w Hw), lowerASCII_idem.
    repeat split.
Qed.

End SearchCaseFacts.

(** X6.  [search] does not look at the letter case of its words: with ASCII
    words written in lower case it gives what it gives with the words as
    they were typed. *)
Theorem search_ignores_the_case_of_its_words
  `{UnicodeTables} `{GoRuntime} (por : string) (words : list string)
  (data : list transaction) :
  Forall (fun w => strings.isASCII w = true) words ->
  searchFeature_Run (por :: map strings.ToLower words) data
  = searchFeature_Run (por :: words) data.
Proof.
  intros Hwords. unfold searchFeature_Run.
  cbn [length nth drop]. rewrite length_map.
  destruct (ToLower_Join_ascii words Hwords) as (H1 & H2 & H3).
  now rewrite (ToLower_ascii _ H1), (ToLower_ascii _ H2), H3.
Qed.

(** [load 2023x abc]: neither code is a quarter; the error takes two
    lines. *)
Lemma load_of_invalid_quarters_witness :
  Forall (fun q => @isValidQuarter latin1Tables q = false) ["2023x"; "abc"] /\
  Error_text
    (joinError [errorString "abc is not a valid quarter";
                errorString "2023x is not a valid quarter"])
  = Some ("abc is not a valid quarter" +:+ nl
          +:+ "2023x is not a valid quarter") /\
  exists order,
    order ≡ₚ ["2023x"; "abc"] /\
    @loadFeature_Run latin1Tables demoUpstream ["2023x"; "abc"] [record_A]
    = ([Printf ("%v" +:+ nl)
               [a_error
                  (joinError
                     (map (fun q => errorString
                                      (q +:+ " is not a valid quarter"))
                          order))]],
       [record_A]) /\
    Error_text
      (joinError
         (map (fun q => errorString (q +:+ " is not a valid quarter")) order))
    = Some (strings.Join
              (map (fun q => q +:+ " is not a valid quarter") order) nl).
Proof.
  split; [repeat constructor|]. split; [reflexivity|].
  apply (@load_of_invalid_quarters latin1Tables demoUpstream
           "2023x" ["abc"] [record_A]).
  repeat constructor.
Defined.

(** [search payers WiEn Energie] and [search payers wien energie]. *)
Lemma search_ignores_the_case_of_its_words_witness :
  Forall (fun w => strings.isASCII w = true) ["WiEn"; "Energie"] /\
  @searchFeature_Run latin1Tables demoRuntime
    ["payers"; "wien"; "energie"] [record_A]
  = @searchFeature_Run latin1Tables demoRuntime
      ["payers"; "WiEn"; "Energie"] [record_A].
Proof.
  split; [repeat constructor|].
  apply (@search_ignores_the_case_of_its_words latin1Tables demoRuntime
           "payers" ["WiEn"; "Energie"] [record_A]).
  repeat constructor.
Defined.

(** ** When [details] panics *)

(** X29.  [details] panics in one case only: on a valid role, when a
    transaction of the organization carries a paragraph other than 2, 4
    and 31; it has printed nothing by then. *)
Theorem details_panics_only_on_unknown_paragraph
  `{GoRuntime} (arguments : list string) (data : list transaction)
  (out : list event) (f : panic) :
  detailsFeature_Run arguments data = Panic out f ->
  exists r words,
    arguments = role_token r :: words /\
    forallb known_paragraph (matching r (strings.Join words " ") data) = false /\
    out = [] /\ f = nil_map_assignment.
Proof.
  intros Hrun. destruct arguments as [|por words]; [discriminate|].
  assert (exists r, por = role_token r) as [r ->].
  { unfold detailsFeature_Run in Hrun.
    change (length (por :: words) <? 1)%nat with false in Hrun.
    cbv iota in Hrun. change (nth 0 (por :: words) "") with por in Hrun.
    destruct (String.eqb_spec por "payers") as [->|_]; [now exists payers|].
    destruct (String.eqb_spec por "recipients") as [->|_];
      [now exists recipients|discriminate]. }
  exists r, words. split; [reflexivity|].
  rewrite details_valid_invocation in Hrun. unfold details_report in Hrun.
  destruct (forallb known_paragraph _); [discriminate|].
  injection Hrun as <- <-. auto.
Qed.

(** The panic of [details payers A] on a record of [A] under a
    paragraph 7. *)
Lemma details_panics_only_on_unknown_paragraph_witness :
  @detailsFeature_Run demoRuntime ["payers"; "A"]
    [ {| Rechtstraeger := "A"; Quartal := "20231"; Bekanntgabe := 7;
         Medieninhaber := "M"; Euro := 10%float |} ]
  = Panic [] nil_map_assignment /\
  exists r words,
    ["payers"; "A"] = role_token r :: words /\
    forallb known_paragraph
      (matching r (strings.Join words " ")
         [ {| Rechtstraeger := "A"; Quartal := "20231"; Bekanntgabe := 7;
              Medieninhaber := "M"; Euro := 10%float |} ]) = false /\
    @nil event = [] /\ nil_map_assignment = nil_map_assignment.
Proof.
  split; [reflexivity|].
  apply (@details_panics_only_on_unknown_paragraph demoRuntime
           ["payers"; "A"]
           [ {| Rechtstraeger := "A"; Quartal := "20231"; Bekanntgabe := 7;
                Medieninhaber := "M"; Euro := 10%float |} ]
           [] nil_map_assignment).
  reflexivity.
Defined.
